(** * ReducedMachine: the simulator of Turing's Reduced Machine

    A shallow embedding of [reducedmachine.py].

    Python values are modelled as follows.
    - A [str] is the list of its code points ([list N]); the pound sign of
      the alphabet is the single code point 163.
    - Numbers are [Z].  The source mixes [int] with the doubles produced by
      [math.pow]; every number it computes is integer valued, and doubles
      are exact on integers of magnitude at most 2^53, so within that range
      the arithmetic below is the arithmetic of the program.
    - The [memory] dict of [EStore] is a [gmap] from address strings to line
      strings; the enumeration order of [dump] is not modelled.
    - A method that may raise is a function from the state before the call
      to a result (a value or the exception raised) and the state after it,
      so that what a failed call leaves behind can be stated.
    - Console output and the memory dump file are not modelled. *)

From Stdlib Require Import ZArith List Lia String Ascii.
From stdpp Require Import gmap list.
Import ListNotations.
Local Open Scope Z_scope.

(** ** Python strings *)

Definition py (s : string) : list N := map N_of_ascii (list_ascii_of_string s).

(** [s.ljust(width, fill)] *)
Definition ljust (s : list N) (width : Z) (fill : N) : list N :=
  s ++ replicate (Z.to_nat (width - Z.of_nat (length s))) fill.

(** [textwrap.wrap(text, width)] on a text without white space or hyphens (every
    string that passes [EStore.valid] is one): the text is a single long word,
    which is broken into consecutive pieces of [width] characters. *)
Fixpoint wrap_pieces (fuel : nat) (text : list N) (width : nat) : list (list N) :=
  match fuel with
  | O => []
  | S fuel' =>
      match text with
      | [] => []
      | _ => take width text :: wrap_pieces fuel' (drop width text) width
      end
  end.

Definition wrap (text : list N) (width : Z) : list (list N) :=
  wrap_pieces (length text) text (Z.to_nat width).

(** ** Exceptions and the state-and-exception monad *)

Inductive exn : Type :=
| AssertionError
| ValueError
| InvalidInstructionError (msg : list N).

(** The class of an exception object, which is what an [except] clause
    matches on. *)
Inductive exn_class : Type :=
| AssertionError_class
| ValueError_class
| InvalidInstructionError_class.

Definition class_of (e : exn) : exn_class :=
  match e with
  | AssertionError => AssertionError_class
  | ValueError => ValueError_class
  | InvalidInstructionError _ => InvalidInstructionError_class
  end.

Inductive result (T : Type) : Type :=
| Ok (v : T)
| Raise (e : exn).
Arguments Ok {T} v.
Arguments Raise {T} e.

Definition ES (St T : Type) : Type := St -> result T * St.

Definition ret {St T} (v : T) : ES St T := fun s => (Ok v, s).

Definition raise {St T} (e : exn) : ES St T := fun s => (Raise e, s).

Definition bind {St T U} (c : ES St T) (k : T -> ES St U) : ES St U :=
  fun s =>
    match c s with
    | (Ok v, s') => k v s'
    | (Raise e, s') => (Raise e, s')
    end.

Definition assert {St} (b : bool) : ES St unit :=
  if b then ret tt else raise AssertionError.

(** A computation that raises or returns without touching the state. *)
Definition lift {St T} (r : result T) : ES St T := fun s => (r, s).

Declare Scope es_scope.
Delimit Scope es_scope with es.
Notation "'let*' x ':=' c 'in' k" := (bind c (fun x => k))
  (at level 10, x name, c at level 100, k at level 200) : es_scope.
Local Open Scope es_scope.

(** ** Global machine settings *)

Definition symbols : list N :=
  py "/E@A:SIU8DRJNFCKTZLWHYPQOBG" ++ [34%N] ++ py "MXV" ++ [163%N].

Definition symbolvalue : Z := 5.

Definition linesize : Z := 20.
Definition shortlinesize : Z := 10.
Definition max_acc_symbols : Z := 8.

Definition max_acc_size : Z := 2 ^ (max_acc_symbols * symbolvalue).
Definition max_line_size : Z := 2 ^ linesize.
Definition max_short_line_size : Z := 2 ^ shortlinesize.

(** [symbols[i]] for an index in range. *)
Definition symbol_at (i : Z) : N := nth (Z.to_nat i) symbols 0%N.

(** [symbols.index(s)]; [None] stands for the [ValueError] of a missing item. *)
Fixpoint index (l : list N) (s : N) : option Z :=
  match l with
  | [] => None
  | x :: l' => if decide (x = s) then Some 0 else Z.succ <$> index l' s
  end.

(** ** The symbol codec *)

(** The [while n != 0] loop of [int_to_symbols]: the pair of [n] and [out]
    when the loop is left, or after [fuel] iterations. *)
Fixpoint int_to_symbols_loop (fuel : nat) (n : Z) (out : list N) : Z * list N :=
  match fuel with
  | O => (n, out)
  | S fuel' =>
      if decide (n <> 0) then
        let m := n mod Z.of_nat (length symbols) in
        let n := n / Z.of_nat (length symbols) in
        int_to_symbols_loop fuel' n (out ++ [symbol_at m])
      else (n, out)
  end.

(** Converts an integer into its symbolic representation:
    [n = n % 2^linesize], the loop, then [out.ljust(size, symbols[0])].
    After the reduction the loop body runs at most [linesize] times, so the
    fuel given here never runs out (see [int_to_symbols_terminates]).  The
    program reduces the double of [n], which is [n] for an [n] of magnitude
    at most 2^53. *)
Definition int_to_symbols (n size : Z) : list N :=
  let n := n mod 2 ^ linesize in
  let out := snd (int_to_symbols_loop (Z.to_nat linesize) n []) in
  ljust out size (symbol_at 0).

(** The [for s in sym] loop of [symbols_to_int], which adds
    [symbols.index(s) * 2^i] to [out] and [symbolvalue] to [i]. *)
Fixpoint symbols_to_int_loop (sym : list N) (i out : Z) : result Z :=
  match sym with
  | [] => Ok out
  | s :: sym' =>
      match index symbols s with
      | Some k => symbols_to_int_loop sym' (i + symbolvalue) (out + k * 2 ^ i)
      | None => Raise ValueError
      end
  end.

(** Converts a symbolic representation of a number to integer form.  The
    sum is exact here; the program's sum of doubles is the same as long as
    the value is below 2^53, and [math.pow(2, i)] is defined up to the 205th
    symbol ([i <= 1020]): on a longer string the program raises an
    [OverflowError], which this function does not model. *)
Definition symbols_to_int (sym : list N) : result Z :=
  symbols_to_int_loop sym 0 0.

(** ** The electronic store *)

(** A value that is either a [str] or a number, for the address argument and
    the result of [EStore.get]. *)
Inductive pyval : Type :=
| PStr (s : list N)
| PNum (n : Z).

Module EStore.

Abbreviation memory := (gmap (list N) (list N)).

(** Tests if [val] is correctly formatted data of length no greater than
    [length]. *)
Definition valid (val : list N) (length : Z) : bool :=
  let correct := Z.of_nat (List.length val) <=? length in
  if correct
  then fold_left (fun correct v => correct && bool_decide (elem_of v symbols)) val correct
  else correct.

(** [self.memory[k] = v] *)
Definition store (k v : list N) : ES memory unit :=
  fun m => (Ok tt, <[k := v]> m).

(** The [for i, v in enumerate(val)] loop of [set]. *)
Fixpoint set_loop (loc_int i : Z) (val : list (list N)) : ES memory unit :=
  match val with
  | [] => ret tt
  | v :: val' =>
      let newloc :=
        int_to_symbols ((loc_int + i) mod max_short_line_size)
                       (shortlinesize / symbolvalue) in
      let* _ := store newloc (ljust v (linesize / symbolvalue) (symbol_at 0)) in
      set_loop loc_int (i + 1) val'
  end.

(** Sets memory location [loc] to value [val], overflowing to the next
    line if [val] is longer than a line. *)
Definition set (loc val : list N) : ES memory unit :=
  let* _ := assert (valid loc (shortlinesize / symbolvalue)) in
  let* _ := assert (valid val (linesize / symbolvalue * 2)) in
  let val := wrap val (linesize / symbolvalue) in
  let* loc_int := lift (symbols_to_int loc) in
  set_loop loc_int 0 val.

(** [if newloc not in self.memory.keys(): self.memory[newloc] = "////"] *)
Definition materialize (newloc : list N) (m : memory) : memory :=
  match m !! newloc with
  | None => <[newloc := py "////"]> m
  | Some _ => m
  end.

(** The [for i in range(lines)] loop of [get], with [count] lines to go. *)
Fixpoint get_loop (loc_int i : Z) (count : nat) (output : list N)
  : ES memory (list N) :=
  match count with
  | O => ret output
  | S count' =>
      let newloc :=
        int_to_symbols ((loc_int + i) mod max_short_line_size)
                       (shortlinesize / symbolvalue) in
      fun m =>
        let m := materialize newloc m in
        get_loop loc_int (i + 1) count' (output ++ m !!! newloc) m
  end.

(** The part of [get] both kinds of address share, from the assertions on. *)
Definition get_lines (loc : list N) (loc_int lines : Z) : ES memory (list N) :=
  let* _ := assert (valid loc (shortlinesize / symbolvalue)) in
  let* _ := assert (1 <=? lines) in
  get_loop loc_int 0 (Z.to_nat lines) [].

(** [get] at an address that is an [int] or a [float]: [loc] is replaced
    by its symbols and the lines read are returned as an integer. *)
Definition get_int (loc lines : Z) : ES memory Z :=
  let loc_int := loc in
  let loc := int_to_symbols loc (shortlinesize / symbolvalue) in
  let* output := get_lines loc loc_int lines in
  lift (symbols_to_int output).

(** [get] at an address that is a string: the lines read are returned as
    a string. *)
Definition get_str (loc : list N) (lines : Z) : ES memory (list N) :=
  let* loc_int := lift (symbols_to_int loc) in
  get_lines loc loc_int lines.

(** Gets [lines] consecutive lines from memory, starting from [loc]. *)
Definition get (loc : pyval) (lines : Z) : ES memory pyval :=
  match loc with
  | PNum n => let* output := get_int n lines in ret (PNum output)
  | PStr s => let* output := get_str s lines in ret (PStr output)
  end.

(** The lines of [dump], in an unspecified order. *)
Definition dump (m : memory) : list (list N) :=
  map (fun x => fst x ++ py " " ++ snd x) (map_to_list m).

(** [load] applied to the (address, value) pairs of the lines of a code
    file that are neither blank nor comments. *)
Fixpoint load (pairs : list (list N * list N)) : ES memory unit :=
  match pairs with
  | [] => ret tt
  | (a, v) :: pairs' => let* _ := set a v in load pairs'
  end.

End EStore.

(** ** The state of a Reduced Machine *)

Module State.

Record t : Type := mk {
  A : Z;
  e_store : EStore.memory;
  C : Z;
  S : Z
}.

(** [State(A, e_store)] with the defaults of [__init__]. *)
Definition init (A : Z) (e_store : EStore.memory) : t :=
  mk A e_store (max_short_line_size - 1) 0.

End State.

(** ** The machine *)

Module ReducedMachine.

Definition set_A (v : Z) : ES State.t unit :=
  fun st => (Ok tt, State.mk v (State.e_store st) (State.C st) (State.S st)).

Definition set_C (v : Z) : ES State.t unit :=
  fun st => (Ok tt, State.mk (State.A st) (State.e_store st) v (State.S st)).

Definition set_S (v : Z) : ES State.t unit :=
  fun st => (Ok tt, State.mk (State.A st) (State.e_store st) (State.C st) v).

Definition read : ES State.t State.t := fun st => (Ok st, st).

(** A method call on [self.state.e_store]. *)
Definition on_store {T} (c : ES EStore.memory T) : ES State.t T :=
  fun st =>
    let '(r, m) := c (State.e_store st) in
    (r, State.mk (State.A st) m (State.C st) (State.S st)).

(** Fetches the next instruction: increments [C] modulo 1024 and reads the
    line at [C], a number, into [S] as an integer. *)
Definition I : ES State.t unit :=
  let* st := read in
  let* _ := set_C ((State.C st + 1) mod max_short_line_size) in
  let* st := read in
  let* s := on_store (EStore.get_int (State.C st) 1) in
  set_S s.

(** The case split of [applyInstruction] on the function symbols, with the
    values the method has decoded and read before it. *)
Definition case_split (st : State.t) (instr line_pair func_sym : list N)
           (s_data s_pair_data : Z) (acc_symbols : list N) : ES State.t unit :=
  if decide (func_sym = py "/H") then
    if negb ((State.A st <? 2 ^ 40) && (2 ^ 39 <=? State.A st))
    then set_C (s_data mod max_short_line_size)
    else ret tt
  else if decide (func_sym = py "/P") then
    set_C (s_data mod max_short_line_size)
  else if decide (func_sym = py "/S") then
    let* _ := set_S (State.A st mod max_line_size) in
    on_store (EStore.set line_pair acc_symbols)
  else if decide (func_sym = py "T/") then
    set_A (s_pair_data mod max_acc_size)
  else if decide (func_sym = py "T:") then
    set_A 0
  else if decide (func_sym = py "TI") then
    set_A (State.A st + s_pair_data mod max_acc_size)
  else if decide (func_sym = py "TN") then
    set_A (State.A st - s_pair_data mod max_acc_size)
  else if decide (func_sym = py "TF") then
    raise (InvalidInstructionError (py "TF currently unimplemented"))
  else if decide (func_sym = py "TK") then
    set_A ((s_pair_data * 2) mod max_acc_size)
  else if decide (func_sym = py "T" ++ [163%N]) then
    ret tt
  else
    raise (InvalidInstructionError
             (py "Instruction " ++ instr ++ py " does not exist!")).

(** Maps the current state onto the next state: decodes [S], reads the
    operand line and the operand line pair, and dispatches. *)
Definition applyInstruction : ES State.t unit :=
  let* st := read in
  let instr := int_to_symbols (State.S st) (linesize / symbolvalue) in
  let line_pair := take (Z.to_nat (shortlinesize / symbolvalue)) instr in
  let func_sym := drop (Z.to_nat (shortlinesize / symbolvalue)) instr in
  let* s_data := on_store (EStore.get_int (State.S st mod max_short_line_size) 1) in
  let* s_pair_data := on_store (EStore.get_int (State.S st mod max_short_line_size) 2) in
  let acc_symbols := int_to_symbols (State.A st) max_acc_symbols in
  case_split st instr line_pair func_sym s_data s_pair_data acc_symbols.

(** Fetches and applies the next instruction. *)
Definition next : ES State.t unit :=
  let* _ := I in applyInstruction.

(** How a call of [run] ends; [n] is the value of the loop counter, the
    number of cycles completed before the last one started. *)
Inductive outcome : Type :=
| HaltingLoop (n : Z) (st : State.t)
| StepsDone (n : Z) (st : State.t)
| Raised (e : exn) (n : Z) (st : State.t)
| OutOfFuel.

(** The [while] loop of [run]; [fuel] bounds the number of cycles, as the
    loop need not terminate when [steps] is 0. *)
Fixpoint run_loop (fuel : nat) (steps n : Z) (st : State.t) : outcome :=
  match fuel with
  | O => OutOfFuel
  | S fuel' =>
      if (n <? steps) || (steps =? 0) then
        let C := State.C st in
        match next st with
        | (Raise e, st') => Raised e n st'
        | (Ok _, st') =>
            if decide (C = State.C st') then HaltingLoop n st'
            else run_loop fuel' steps (n + 1) st'
        end
      else StepsDone n st
  end.

(** Runs the machine for [steps] steps, or until a halting loop is
    detected. *)
Definition run (fuel : nat) (steps : Z) (st : State.t) : outcome :=
  run_loop fuel steps 0 st.

(** The number of cycles a finished run executed. *)
Definition cycles (o : outcome) : option Z :=
  match o with
  | HaltingLoop n _ => Some (n + 1)
  | StepsDone n _ => Some n
  | Raised _ n _ => Some (n + 1)
  | OutOfFuel => None
  end.

End ReducedMachine.

(** The main script: an empty store, the code file loaded into it, a machine
    on [State(0, e_store)], and [run(max_steps)]. *)
Definition main (fuel : nat) (code : list (list N * list N)) (max_steps : Z)
  : option ReducedMachine.outcome :=
  match EStore.load code ∅ with
  | (Ok _, e_store) => Some (ReducedMachine.run fuel max_steps (State.init 0 e_store))
  | (Raise _, _) => None
  end.

(** * Vocabulary of the properties *)

Definition rmap {T U} (f : T -> U) (r : result T) : result U :=
  match r with
  | Ok v => Ok (f v)
  | Raise e => Raise e
  end.

(** The symbols the encoding loop emits for [n], before padding. *)
Definition digits (fuel : nat) (n : Z) : list N :=
  snd (int_to_symbols_loop fuel n []).

(** The key under which the store keeps the line of address [x]. *)
Definition addr (x : Z) : list N :=
  int_to_symbols (x mod max_short_line_size) (shortlinesize / symbolvalue).

(** A string of exactly [len] symbols of the alphabet. *)
Definition is_field (len : nat) (s : list N) : Prop :=
  length s = len /\ Forall (fun c => c ∈ symbols) s.

(** Every key of the store is a short field and every value a line. *)
Definition wf_store (m : EStore.memory) : Prop :=
  map_Forall (fun k v => is_field 2 k /\ is_field 4 v) m.

(** A call of [set] or [get] by a client of the store. *)
Inductive store_op : Type :=
| op_set (loc val : list N)
| op_get (loc : pyval) (lines : Z).

(** The store after a call, whether the call returned or raised. *)
Definition apply_op (m : EStore.memory) (o : store_op) : EStore.memory :=
  match o with
  | op_set loc val => snd (EStore.set loc val m)
  | op_get loc lines => snd (EStore.get loc lines m)
  end.

Definition apply_ops (ops : list store_op) (m : EStore.memory) : EStore.memory :=
  fold_left apply_op ops m.

(** The machine state with the store replaced. *)
Definition with_store (st : State.t) (m : EStore.memory) : State.t :=
  State.mk (State.A st) m (State.C st) (State.S st).

(** The store after the operand reads of [applyInstruction] at address [a]:
    the line at [a] and the one after it are there. *)
Definition operands_read (a : Z) (m : EStore.memory) : EStore.memory :=
  EStore.materialize (addr (a + 1)) (EStore.materialize (addr a) m).

(** The function codes [applyInstruction] has a branch for. *)
Definition function_codes : list (list N) :=
  [py "/H"; py "/P"; py "/S"; py "T/"; py "T:"; py "TI"; py "TN"; py "TF";
   py "TK"; py "T" ++ [163%N]].

(** The line of address [x] as a read shows it: the line the store holds
    there, or the zero line a read would put there. *)
Definition line_at (m : EStore.memory) (x : Z) : list N :=
  default (py "////") (m !! addr x).

(** The [count] lines from address [x] on, as a read shows them. *)
Fixpoint read_lines (m : EStore.memory) (x : Z) (count : nat) : list N :=
  match count with
  | O => []
  | S count' => line_at m x ++ read_lines m (x + 1) count'
  end.

(** The store with the [count] lines from address [x] on materialized. *)
Fixpoint materialize_lines (m : EStore.memory) (x : Z) (count : nat)
  : EStore.memory :=
  match count with
  | O => m
  | S count' => materialize_lines (EStore.materialize (addr x) m) (x + 1) count'
  end.

(** The function symbols of the instruction in the register [S]. *)
Definition func_of (st : State.t) : list N :=
  drop 2 (int_to_symbols (State.S st) 4).

(** The operand address of the instruction in the register [S]. *)
Definition operand_of (st : State.t) : Z :=
  State.S st mod max_short_line_size.

(** The store after [set] of an (address, value) pair. *)
Definition set_pair (m : EStore.memory) (p : list N * list N) : EStore.memory :=
  snd (EStore.set (fst p) (snd p) m).

(** An (address, value) pair [set] accepts. *)
Definition valid_pair (p : list N * list N) : Prop :=
  EStore.valid (fst p) 2 = true /\ EStore.valid (snd p) 8 = true.

(** Registers in the range where the program's arithmetic on them is exact
    and where the machine keeps [C] and [S]: an accumulator whose sum with a
    40-bit operand is below 2^53 in magnitude, a program counter that is an
    address and an [S] that is the value of a line. *)
Definition exact_registers (st : State.t) : Prop :=
  - (2 ^ 53 - 2 ^ 41) <= State.A st <= 2 ^ 53 - 2 ^ 41 /\
  0 <= State.C st < 1024 /\ 0 <= State.S st < 2 ^ 20.

(** A run that ended left a well-formed store and, if it raised, raised an
    [InvalidInstructionError]. *)
Definition safe_outcome (o : ReducedMachine.outcome) : Prop :=
  match o with
  | ReducedMachine.HaltingLoop _ st | ReducedMachine.StepsDone _ st =>
      wf_store (State.e_store st)
  | ReducedMachine.Raised e _ st =>
      wf_store (State.e_store st) /\ exists msg, e = InvalidInstructionError msg
  | ReducedMachine.OutOfFuel => True
  end.

(** * Properties *)

(** ** The alphabet *)

Lemma length_symbols : Z.of_nat (length symbols) = 32.
Proof. reflexivity. Qed.

Lemma index_Some (l : list N) (s : N) (k : Z) :
  index l s = Some k ->
  0 <= k < Z.of_nat (length l) /\ nth (Z.to_nat k) l 0%N = s.
Proof.
  revert k. induction l as [|x l IH]; intros k; simpl; [discriminate|].
  destruct (decide (x = s)) as [->|Hne].
  - intros [= <-]. split; [lia|reflexivity].
  - destruct (index l s) as [j|] eqn:Hj; simpl; [|discriminate].
    intros [= <-]. destruct (IH j eq_refl) as [Hr Hn].
    split; [lia|].
    replace (Z.to_nat (Z.succ j)) with (S (Z.to_nat j)) by lia. exact Hn.
Qed.

Lemma index_None (l : list N) (s : N) : index l s = None <-> s ∉ l.
Proof.
  induction l as [|x l IH]; simpl.
  - split; [intros _; apply not_elem_of_nil|reflexivity].
  - destruct (decide (x = s)) as [->|Hne].
    + split; [discriminate|]. intros H. exfalso. apply H. left.
    + rewrite not_elem_of_cons. destruct (index l s); simpl.
      * split; [discriminate|]. intros [_ H]. apply IH in H. discriminate.
      * split; [|reflexivity]. intros _. split; [congruence|]. by apply IH.
Qed.

Lemma index_is_Some (s : N) : s ∈ symbols -> exists k, index symbols s = Some k.
Proof.
  intros Hs. destruct (index symbols s) as [k|] eqn:Hk; [eauto|].
  apply index_None in Hk. contradiction.
Qed.

Lemma index_symbol_at (k : Z) :
  0 <= k < 32 -> index symbols (symbol_at k) = Some k.
Proof.
  intros Hk. rewrite <- (Z2Nat.id k) by lia.
  assert (Hn : (Z.to_nat k < 32)%nat) by lia.
  generalize dependent (Z.to_nat k). clear k Hk. intros n Hn.
  do 32 (destruct n as [|n]; [reflexivity|]). lia.
Qed.

Lemma symbol_at_elem (k : Z) : 0 <= k < 32 -> symbol_at k ∈ symbols.
Proof.
  intros Hk. destruct (index symbols (symbol_at k)) eqn:E.
  - destruct (decide (symbol_at k ∈ symbols)) as [|Hn]; [done|].
    apply index_None in Hn. congruence.
  - rewrite index_symbol_at in E by done. discriminate.
Qed.

Lemma index_range (s : N) (k : Z) :
  index symbols s = Some k -> 0 <= k < 32 /\ symbol_at k = s.
Proof. intros H. apply index_Some in H. exact H. Qed.

Lemma index_zero (s : N) : index symbols s = Some 0 -> s = symbol_at 0.
Proof. intros H. apply index_range in H. symmetry. apply H. Qed.

(** ** The codec *)

Lemma rmap_rmap {T U V} (f : T -> U) (g : U -> V) (r : result T) :
  rmap g (rmap f r) = rmap (fun v => g (f v)) r.
Proof. destruct r; reflexivity. Qed.

Lemma rmap_ext {T U} (f g : T -> U) (r : result T) :
  (forall v, f v = g v) -> rmap f r = rmap g r.
Proof. intros H. destruct r; simpl; [rewrite H|]; reflexivity. Qed.

(** The decoding loop started at bit position [i] with the sum [acc] adds
    the value of the string, shifted by [i] bits, to [acc]. *)
Lemma symbols_to_int_loop_shift (sym : list N) :
  forall i acc, 0 <= i ->
    symbols_to_int_loop sym i acc
    = rmap (fun v => acc + 2 ^ i * v) (symbols_to_int sym).
Proof.
  unfold symbols_to_int.
  induction sym as [|s sym IH]; intros i acc Hi; cbn [symbols_to_int_loop rmap].
  - f_equal. lia.
  - destruct (index symbols s) as [k|]; [|reflexivity].
    rewrite (IH (i + symbolvalue) (acc + k * 2 ^ i)) by (unfold symbolvalue; lia).
    rewrite (IH (0 + symbolvalue) (0 + k * 2 ^ 0)) by (unfold symbolvalue; lia).
    rewrite rmap_rmap. apply rmap_ext. intros v.
    unfold symbolvalue. rewrite Z.pow_add_r by lia.
    change (2 ^ (0 + 5)) with 32. change (2 ^ 0) with 1. change (2 ^ 5) with 32. lia.
Qed.

Lemma symbols_to_int_nil : symbols_to_int [] = Ok 0.
Proof. reflexivity. Qed.

Lemma symbols_to_int_cons (s : N) (sym : list N) :
  symbols_to_int (s :: sym)
  = match index symbols s with
    | Some k => rmap (fun v => k + 32 * v) (symbols_to_int sym)
    | None => Raise ValueError
    end.
Proof.
  unfold symbols_to_int at 1. cbn [symbols_to_int_loop].
  destruct (index symbols s) as [k|]; [|reflexivity].
  rewrite symbols_to_int_loop_shift by (unfold symbolvalue; lia).
  apply rmap_ext. intros v. unfold symbolvalue.
  change (2 ^ (0 + 5)) with 32. change (2 ^ 0) with 1. lia.
Qed.

Lemma symbols_to_int_app (a b : list N) (va vb : Z) :
  symbols_to_int a = Ok va -> symbols_to_int b = Ok vb ->
  symbols_to_int (a ++ b) = Ok (va + 32 ^ Z.of_nat (length a) * vb).
Proof.
  revert va. induction a as [|s a IH]; intros va Ha Hb; cbn [app length].
  - rewrite symbols_to_int_nil in Ha. injection Ha as <-. rewrite Hb. f_equal. lia.
  - rewrite symbols_to_int_cons in Ha |- *.
    destruct (index symbols s) as [k|]; [|discriminate].
    destruct (symbols_to_int a) as [v|] eqn:Hv; [|discriminate].
    rewrite (IH v eq_refl Hb). cbn [rmap] in Ha |- *. injection Ha as <-. f_equal.
    replace (Z.of_nat (S (length a))) with (Z.of_nat (length a) + 1) by lia.
    rewrite Z.pow_add_r by lia. lia.
Qed.

(** Decoding succeeds exactly on strings over the alphabet, and the value
    is below [32 ^ len]. *)
Lemma symbols_to_int_valid (sym : list N) :
  Forall (fun s => s ∈ symbols) sym ->
  exists v, symbols_to_int sym = Ok v /\ 0 <= v < 32 ^ Z.of_nat (length sym).
Proof.
  induction 1 as [|s sym Hs _ IH].
  - exists 0. split; [reflexivity|]. cbn [length]. lia.
  - destruct IH as (v & Hv & Hr). destruct (index_is_Some s Hs) as [k Hk].
    exists (k + 32 * v). rewrite symbols_to_int_cons, Hk, Hv. split; [reflexivity|].
    apply index_range in Hk. destruct Hk as [Hk _].
    replace (Z.of_nat (length (s :: sym))) with (Z.of_nat (length sym) + 1)
      by (cbn [length]; lia).
    rewrite Z.pow_add_r by lia. lia.
Qed.

Lemma symbols_to_int_replicate (k : nat) :
  symbols_to_int (replicate k (symbol_at 0)) = Ok 0.
Proof.
  induction k as [|k IH]; [reflexivity|].
  cbn [replicate]. rewrite symbols_to_int_cons, IH. reflexivity.
Qed.

(** The encoding loop appends to [out] the digits it emits. *)
Lemma int_to_symbols_loop_out (fuel : nat) :
  forall n out,
    int_to_symbols_loop fuel n out
    = (fst (int_to_symbols_loop fuel n []), out ++ digits fuel n).
Proof.
  unfold digits.
  induction fuel as [|fuel IH]; intros n out; cbn [int_to_symbols_loop fst snd].
  - by rewrite app_nil_r.
  - destruct (decide (n <> 0)); cbn [fst snd]; [|by rewrite app_nil_r].
    rewrite (IH _ (out ++ _)), (IH _ ([] ++ _)). cbn [fst snd].
    by rewrite <- app_assoc.
Qed.

Lemma digits_zero (fuel : nat) : digits fuel 0 = [].
Proof. destruct fuel; reflexivity. Qed.

Lemma digits_step (fuel : nat) (n : Z) :
  n <> 0 -> digits (S fuel) n = symbol_at (n mod 32) :: digits fuel (n / 32).
Proof.
  intros Hn. unfold digits at 1. cbn [int_to_symbols_loop].
  destruct (decide (n <> 0)); [|contradiction].
  rewrite int_to_symbols_loop_out. reflexivity.
Qed.

(** The loop is left with [n = 0]: the fuel is never what stops it. *)
Lemma int_to_symbols_loop_done (fuel : nat) :
  forall n, 0 <= n < 2 ^ Z.of_nat fuel ->
    fst (int_to_symbols_loop fuel n []) = 0.
Proof.
  induction fuel as [|fuel IH]; intros n Hn; cbn [int_to_symbols_loop fst].
  - change (2 ^ Z.of_nat 0) with 1 in Hn. lia.
  - destruct (decide (n <> 0)) as [Hne|He]; cbn [fst]; [|lia].
    rewrite int_to_symbols_loop_out. cbn [fst]. apply IH.
    rewrite Nat2Z.inj_succ, Z.pow_succ_r in Hn by lia.
    change (Z.of_nat (length symbols)) with 32.
    split; [apply Z.div_pos; lia|].
    apply Z.div_lt_upper_bound; lia.
Qed.

Lemma int_to_symbols_terminates (n : Z) :
  fst (int_to_symbols_loop (Z.to_nat linesize) (n mod 2 ^ linesize) []) = 0.
Proof. apply int_to_symbols_loop_done, Z.mod_pos_bound. reflexivity. Qed.

Lemma int_to_symbols_digits (n size : Z) :
  int_to_symbols n size
  = ljust (digits (Z.to_nat linesize) (n mod 2 ^ linesize)) size (symbol_at 0).
Proof. reflexivity. Qed.

Lemma digits_elem (fuel : nat) :
  forall n, 0 <= n -> Forall (fun s => s ∈ symbols) (digits fuel n).
Proof.
  induction fuel as [|fuel IH]; intros n Hn; [constructor|].
  destruct (decide (n = 0)) as [->|Hne]; [rewrite digits_zero; constructor|].
  rewrite digits_step by done. constructor.
  - apply symbol_at_elem. apply Z.mod_pos_bound. lia.
  - apply IH. apply Z.div_pos; lia.
Qed.

Lemma digits_value (fuel : nat) :
  forall n, 0 <= n < 2 ^ Z.of_nat fuel -> symbols_to_int (digits fuel n) = Ok n.
Proof.
  induction fuel as [|fuel IH]; intros n Hn.
  - change (2 ^ Z.of_nat 0) with 1 in Hn. by replace n with 0 by lia.
  - destruct (decide (n = 0)) as [->|Hne]; [by rewrite digits_zero|].
    rewrite digits_step, symbols_to_int_cons by done.
    rewrite index_symbol_at by (apply Z.mod_pos_bound; lia).
    rewrite Nat2Z.inj_succ, Z.pow_succ_r in Hn by lia.
    rewrite IH.
    + cbn [rmap]. f_equal. pose proof (Z.div_mod n 32). lia.
    + split; [apply Z.div_pos; lia|apply Z.div_lt_upper_bound; lia].
Qed.

(** The number of digits emitted is the least [w] with [n < 32 ^ w]. *)
Lemma digits_length (fuel : nat) :
  forall n (w : nat), 0 <= n < 2 ^ Z.of_nat fuel ->
    (n < 32 ^ Z.of_nat w <-> (length (digits fuel n) <= w)%nat).
Proof.
  induction fuel as [|fuel IH]; intros n w Hn.
  - change (2 ^ Z.of_nat 0) with 1 in Hn. replace n with 0 by lia.
    cbn [digits int_to_symbols_loop snd length]. split; [lia|].
    intros _. apply Z.pow_pos_nonneg; lia.
  - destruct (decide (n = 0)) as [->|Hne].
    { rewrite digits_zero. cbn [length]. split; [lia|].
      intros _. apply Z.pow_pos_nonneg; lia. }
    rewrite digits_step by done. cbn [length].
    rewrite Nat2Z.inj_succ, Z.pow_succ_r in Hn by lia.
    assert (Hq : 0 <= n / 32 < 2 ^ Z.of_nat fuel)
      by (split; [apply Z.div_pos; lia|apply Z.div_lt_upper_bound; lia]).
    destruct w as [|w].
    + change (32 ^ Z.of_nat 0) with 1. lia.
    + rewrite Nat2Z.inj_succ, Z.pow_succ_r by lia.
      specialize (IH (n / 32) w Hq).
      pose proof (Z.div_mod n 32). pose proof (Z.mod_pos_bound n 32).
      split; intros H'.
      * apply le_n_S, IH. apply Z.div_lt_upper_bound; lia.
      * apply le_S_n, IH in H'. lia.
Qed.

(** Digit [i] of the output is [n / 32^i mod 32]: least significant first. *)
Lemma digits_lookup (fuel : nat) :
  forall n (i : nat), 0 <= n < 2 ^ Z.of_nat fuel ->
    (i < length (digits fuel n))%nat ->
    digits fuel n !! i = Some (symbol_at (n / 32 ^ Z.of_nat i mod 32)).
Proof.
  induction fuel as [|fuel IH]; intros n i Hn Hi.
  - cbn [digits int_to_symbols_loop snd length] in Hi. lia.
  - destruct (decide (n = 0)) as [->|Hne].
    { rewrite digits_zero in Hi. cbn [length] in Hi. lia. }
    rewrite digits_step in Hi |- * by done. cbn [length] in Hi.
    rewrite Nat2Z.inj_succ, Z.pow_succ_r in Hn by lia.
    destruct i as [|i].
    + cbn [lookup list_lookup]. change (32 ^ Z.of_nat 0) with 1.
      by rewrite Z.div_1_r.
    + cbn [lookup list_lookup]. change (digits fuel (n / 32) !! i = Some
        (symbol_at (n / 32 ^ Z.of_nat (S i) mod 32))).
      rewrite IH.
      * rewrite Nat2Z.inj_succ, Z.pow_succ_r by lia.
        rewrite Z.div_div by (try apply Z.pow_pos_nonneg; lia). reflexivity.
      * split; [apply Z.div_pos; lia|apply Z.div_lt_upper_bound; lia].
      * lia.
Qed.

Lemma length_ljust (s : list N) (width : Z) (fill : N) :
  Z.of_nat (length (ljust s width fill)) = Z.max (Z.of_nat (length s)) width.
Proof. unfold ljust. rewrite length_app, length_replicate. lia. Qed.

Lemma ljust_cons (c : N) (s : list N) (width : Z) (fill : N) :
  ljust (c :: s) (width + 1) fill = c :: ljust s width fill.
Proof.
  unfold ljust. cbn [app length]. do 3 f_equal. lia.
Qed.

Lemma ljust_elem (s : list N) (width : Z) (fill : N) :
  Forall (fun c => c ∈ symbols) s -> fill ∈ symbols ->
  Forall (fun c => c ∈ symbols) (ljust s width fill).
Proof.
  intros Hs Hf. unfold ljust. apply Forall_app. split; [done|].
  by apply Forall_replicate.
Qed.

Lemma reduced_range (n : Z) : 0 <= n mod 2 ^ linesize < 2 ^ Z.of_nat (Z.to_nat linesize).
Proof. apply Z.mod_pos_bound. reflexivity. Qed.

(** Decoding an encoding gives the residue modulo [2^20], whatever the size. *)
Lemma int_to_symbols_value (n size : Z) :
  symbols_to_int (int_to_symbols n size) = Ok (n mod 2 ^ linesize).
Proof.
  rewrite int_to_symbols_digits. unfold ljust.
  erewrite symbols_to_int_app;
    [|apply digits_value, reduced_range|apply symbols_to_int_replicate].
  f_equal. lia.
Qed.

Lemma int_to_symbols_elem (n size : Z) :
  Forall (fun c => c ∈ symbols) (int_to_symbols n size).
Proof.
  rewrite int_to_symbols_digits. apply ljust_elem.
  - apply digits_elem, reduced_range.
  - by apply symbol_at_elem.
Qed.

Lemma int_to_symbols_length (n size : Z) :
  0 <= size -> n mod 2 ^ linesize < 32 ^ size ->
  Z.of_nat (length (int_to_symbols n size)) = size.
Proof.
  intros Hs Hn. rewrite int_to_symbols_digits, length_ljust.
  rewrite <- (Z2Nat.id size) in Hn by done.
  apply (digits_length _ _ _ (reduced_range n)) in Hn. lia.
Qed.

(** Encoding the value of a string over the alphabet to the length of the
    string gives the string back, as long as the fuel covers the value. *)
Lemma digits_of_value (sym : list N) :
  forall (fuel : nat) v,
    symbols_to_int sym = Ok v -> v < 2 ^ Z.of_nat fuel ->
    ljust (digits fuel v) (Z.of_nat (length sym)) (symbol_at 0) = sym.
Proof.
  induction sym as [|s sym IH]; intros fuel v Hv Hf.
  - injection Hv as <-. by rewrite digits_zero.
  - rewrite symbols_to_int_cons in Hv.
    destruct (index symbols s) as [k|] eqn:Hk; [|discriminate].
    destruct (symbols_to_int sym) as [v'|] eqn:Hv'; [|discriminate].
    cbn [rmap] in Hv. injection Hv as <-.
    assert (Hsym : Forall (fun c => c ∈ symbols) sym /\ 0 <= v').
    { clear -Hv'. revert v' Hv'. induction sym as [|c sym IH]; intros v Hv.
      - injection Hv as <-. split; [constructor|lia].
      - rewrite symbols_to_int_cons in Hv.
        destruct (index symbols c) as [k|] eqn:Hk; [|discriminate].
        destruct (symbols_to_int sym) as [v'|]; [|discriminate].
        cbn [rmap] in Hv. injection Hv as <-. destruct (IH v' eq_refl).
        apply index_range in Hk as Hr. split; [|lia]. constructor; [|done].
        destruct Hr as [Hr <-]. by apply symbol_at_elem. }
    destruct Hsym as [_ Hv0]. apply index_range in Hk as [Hk <-].
    replace (Z.of_nat (length (symbol_at k :: sym)))
      with (Z.of_nat (length sym) + 1) by (cbn [length]; lia).
    destruct (decide (k + 32 * v' = 0)) as [Hz|Hnz].
    + assert (k = 0) as -> by lia. assert (v' = 0) as -> by lia.
      rewrite Hz, digits_zero.
      specialize (IH fuel 0 eq_refl ltac:(apply Z.pow_pos_nonneg; lia)).
      rewrite digits_zero in IH. unfold ljust in IH |- *. cbn [app length] in IH |- *.
      replace (Z.to_nat (Z.of_nat (length sym) + 1 - Z.of_nat 0))
        with (S (Z.to_nat (Z.of_nat (length sym) - Z.of_nat 0))) by lia.
      cbn [replicate]. by rewrite IH.
    + destruct fuel as [|fuel].
      { change (2 ^ Z.of_nat 0) with 1 in Hf. lia. }
      rewrite digits_step by done.
      rewrite Nat2Z.inj_succ, Z.pow_succ_r in Hf by lia.
      replace ((k + 32 * v') mod 32) with k
        by (apply (Z.mod_unique_pos _ 32 v'); lia).
      replace ((k + 32 * v') / 32) with v'
        by (apply (Z.div_unique_pos _ 32 v' k); lia).
      rewrite ljust_cons. f_equal. apply IH; [done|lia].
Qed.

(** Every symbol of an encoding, padding included, is the base-32 digit of
    the residue at its position. *)
Lemma int_to_symbols_lookup (n size : Z) (i : nat) :
  (i < length (int_to_symbols n size))%nat ->
  int_to_symbols n size !! i
  = Some (symbol_at ((n mod 2 ^ linesize) / 32 ^ Z.of_nat i mod 32)).
Proof.
  rewrite int_to_symbols_digits. pose proof (reduced_range n) as Hr.
  set (r := n mod 2 ^ linesize) in *. set (fuel := Z.to_nat linesize) in *.
  intros Hi. unfold ljust in Hi |- *.
  destruct (decide (i < length (digits fuel r))%nat) as [Hlt|Hge].
  - rewrite lookup_app_l by done. by apply digits_lookup.
  - rewrite lookup_app_r by lia. rewrite length_app, length_replicate in Hi.
    rewrite lookup_replicate_2 by lia. do 2 f_equal.
    assert (Hlen : r < 32 ^ Z.of_nat i) by (apply (digits_length fuel); [done|lia]).
    rewrite Z.div_small by lia. reflexivity.
Qed.

(** The length of an encoding: the requested size, or the number of digits
    of the residue when that is larger. *)
Lemma int_to_symbols_width (n size : Z) :
  exists k : nat,
    n mod 2 ^ linesize < 32 ^ Z.of_nat k /\
    (forall j : nat, n mod 2 ^ linesize < 32 ^ Z.of_nat j -> (k <= j)%nat) /\
    (k <= 4)%nat /\
    int_to_symbols n size
    = take k (int_to_symbols n size)
      ++ replicate (Z.to_nat (size - Z.of_nat k)) (symbol_at 0) /\
    Z.of_nat (length (int_to_symbols n size)) = Z.max size (Z.of_nat k).
Proof.
  rewrite int_to_symbols_digits. pose proof (reduced_range n) as Hr.
  set (r := n mod 2 ^ linesize) in *. set (fuel := Z.to_nat linesize) in *.
  exists (length (digits fuel r)).
  split; [by apply (digits_length fuel)|].
  split; [intros j Hj; by apply (digits_length fuel) in Hj|].
  split; [apply (digits_length fuel); [done|exact (proj2 Hr)]|].
  split; [|rewrite length_ljust; lia].
  unfold ljust. by rewrite take_app_length.
Qed.

(** ** The monad *)

Lemma bind_Ok {St T U} (c : ES St T) (k : T -> ES St U) (s s' : St) (v : T) :
  c s = (Ok v, s') -> bind c k s = k v s'.
Proof. intros H. unfold bind. by rewrite H. Qed.

Lemma bind_Raise {St T U} (c : ES St T) (k : T -> ES St U) (s s' : St) (e : exn) :
  c s = (Raise e, s') -> bind c k s = (Raise e, s').
Proof. intros H. unfold bind. by rewrite H. Qed.

(** ** The electronic store *)

Lemma valid_fold (val : list N) (b : bool) :
  fold_left (fun correct v => correct && bool_decide (v ∈ symbols)) val b = true
  <-> b = true /\ Forall (fun c => c ∈ symbols) val.
Proof.
  revert b. induction val as [|v val IH]; intros b; cbn [fold_left].
  - split; [intros ->; by split|by intros [-> _]].
  - rewrite IH, andb_true_iff, bool_decide_eq_true, Forall_cons. tauto.
Qed.

Lemma valid_spec (val : list N) (len : Z) :
  EStore.valid val len = true
  <-> Z.of_nat (length val) <= len /\ Forall (fun c => c ∈ symbols) val.
Proof.
  unfold EStore.valid.
  destruct (Z.of_nat (length val) <=? len) eqn:E.
  - rewrite valid_fold. apply Z.leb_le in E. tauto.
  - apply Z.leb_gt in E. split; [discriminate|lia].
Qed.

Lemma valid_field (len : nat) (s : list N) :
  is_field len s -> EStore.valid s (Z.of_nat len) = true.
Proof. intros [<- Hs]. apply valid_spec. split; [lia|done]. Qed.

Lemma addr_field (x : Z) : is_field 2 (addr x).
Proof.
  split; [|apply int_to_symbols_elem].
  apply Nat2Z.inj. unfold addr. apply int_to_symbols_length; [done|].
  pose proof (Z.mod_pos_bound x max_short_line_size eq_refl) as Hx.
  rewrite Z.mod_small; [exact (proj2 Hx)|].
  split; [lia|]. transitivity max_short_line_size; [lia|reflexivity].
Qed.

Lemma zero_line_field : is_field 4 (py "////").
Proof.
  split; [reflexivity|]. change (py "////") with (replicate 4 (symbol_at 0)).
  apply Forall_replicate. by apply symbol_at_elem.
Qed.

Lemma ljust_field (v : list N) (len : nat) :
  (length v <= len)%nat -> Forall (fun c => c ∈ symbols) v ->
  is_field len (ljust v (Z.of_nat len) (symbol_at 0)).
Proof.
  intros Hl Hv. split.
  - apply Nat2Z.inj. rewrite length_ljust. lia.
  - apply ljust_elem; [done|by apply symbol_at_elem].
Qed.

Lemma wrap_pieces_elem (fuel : nat) (width : nat) :
  forall text, Forall (fun c => c ∈ symbols) text ->
    Forall (fun p => (length p <= width)%nat /\ Forall (fun c => c ∈ symbols) p)
           (wrap_pieces fuel text width).
Proof.
  induction fuel as [|fuel IH]; intros text Ht; cbn [wrap_pieces]; [constructor|].
  destruct text as [|c text]; [constructor|].
  constructor.
  - split; [rewrite length_take; lia|by apply Forall_take].
  - apply IH. by apply Forall_drop.
Qed.

(** With pieces of at least one character the fuel of [wrap] covers the
    text: the pieces put together are the text. *)
Lemma wrap_pieces_concat (fuel : nat) (width : nat) :
  forall text, (0 < width)%nat -> (length text <= fuel)%nat ->
    concat (wrap_pieces fuel text width) = text.
Proof.
  induction fuel as [|fuel IH]; intros text Hw Hlen; cbn [wrap_pieces].
  - destruct text; [done|cbn [length] in Hlen; lia].
  - destruct text as [|c text]; [done|].
    cbn [concat]. rewrite IH; [apply take_drop|done|].
    rewrite length_drop. cbn [length] in Hlen |- *. lia.
Qed.

Lemma wf_store_insert (m : EStore.memory) (k v : list N) :
  wf_store m -> is_field 2 k -> is_field 4 v -> wf_store (<[k := v]> m).
Proof. intros Hm Hk Hv. by apply map_Forall_insert_2. Qed.

Lemma wf_store_empty : wf_store ∅.
Proof. apply map_Forall_empty. Qed.

Lemma wf_store_materialize (m : EStore.memory) (x : Z) :
  wf_store m -> wf_store (EStore.materialize (addr x) m).
Proof.
  intros Hm. unfold EStore.materialize. destruct (m !! addr x); [done|].
  apply wf_store_insert; [done|apply addr_field|apply zero_line_field].
Qed.

Lemma materialize_lookup (m : EStore.memory) (k : list N) :
  exists line, EStore.materialize k m !! k = Some line /\
               (m !! k = None -> line = py "////") /\
               (forall l, m !! k = Some l -> line = l).
Proof.
  unfold EStore.materialize. destruct (m !! k) as [l|] eqn:E.
  - exists l. rewrite E. split; [done|]. split; [discriminate|by intros ? [= <-]].
  - exists (py "////"). rewrite lookup_insert_eq. split; [done|]. split; [done|discriminate].
Qed.

Lemma materialize_present (m : EStore.memory) (k l : list N) :
  m !! k = Some l -> EStore.materialize k m = m.
Proof. intros H. unfold EStore.materialize. by rewrite H. Qed.

Lemma materialize_absent (m : EStore.memory) (k : list N) :
  m !! k = None -> EStore.materialize k m = <[k := py "////"]> m.
Proof. intros H. unfold EStore.materialize. by rewrite H. Qed.

Lemma materialize_keeps (m : EStore.memory) (k k' l : list N) :
  m !! k' = Some l -> EStore.materialize k m !! k' = Some l.
Proof.
  intros H. unfold EStore.materialize. destruct (m !! k) eqn:E; [done|].
  rewrite lookup_insert_ne; [done|]. intros ->. congruence.
Qed.

(** *** [set] *)

Lemma set_loop_Ok (val : list (list N)) :
  forall loc_int i m, exists m', EStore.set_loop loc_int i val m = (Ok tt, m').
Proof.
  induction val as [|v val IH]; intros loc_int i m; cbn [EStore.set_loop].
  - by exists m.
  - unfold bind, EStore.store. apply IH.
Qed.

Lemma set_loop_wf (val : list (list N)) :
  forall loc_int i m,
    Forall (fun p => (length p <= 4)%nat /\ Forall (fun c => c ∈ symbols) p) val ->
    wf_store m -> wf_store (snd (EStore.set_loop loc_int i val m)).
Proof.
  induction val as [|v val IH]; intros loc_int i m Hval Hm; cbn [EStore.set_loop].
  - done.
  - apply Forall_cons in Hval as [[Hl Hv] Hval].
    unfold bind, EStore.store. apply IH; [done|].
    apply wf_store_insert; [done|apply addr_field|].
    by apply (ljust_field v 4).
Qed.

(** What [set] does, by the outcome of its two assertions. *)
Lemma set_invalid (m : EStore.memory) (loc val : list N) :
  EStore.valid loc 2 && EStore.valid val 8 = false ->
  EStore.set loc val m = (Raise AssertionError, m).
Proof.
  intros H. unfold EStore.set, bind, assert.
  change (shortlinesize / symbolvalue) with 2.
  change (linesize / symbolvalue * 2) with 8.
  destruct (EStore.valid loc 2); [|reflexivity].
  destruct (EStore.valid val 8); [discriminate|reflexivity].
Qed.

Lemma set_valid (m : EStore.memory) (loc val : list N) :
  EStore.valid loc 2 = true -> EStore.valid val 8 = true ->
  exists loc_int,
    symbols_to_int loc = Ok loc_int /\
    EStore.set loc val m = EStore.set_loop loc_int 0 (wrap val 4) m.
Proof.
  intros Hl Hv. unfold EStore.set, bind, assert, lift.
  change (shortlinesize / symbolvalue) with 2.
  change (linesize / symbolvalue * 2) with 8.
  change (linesize / symbolvalue) with 4.
  rewrite Hl, Hv. cbn [ret].
  apply valid_spec in Hl as [_ Hl].
  destruct (symbols_to_int_valid loc Hl) as (v & -> & _). by exists v.
Qed.

Lemma set_wf (m : EStore.memory) (loc val : list N) :
  wf_store m -> wf_store (snd (EStore.set loc val m)).
Proof.
  intros Hm.
  destruct (EStore.valid loc 2 && EStore.valid val 8) eqn:E.
  - apply andb_true_iff in E as [Hl Hv].
    destruct (set_valid m loc val Hl Hv) as (loc_int & _ & ->).
    apply set_loop_wf; [|done]. apply valid_spec in Hv as [_ Hv].
    by apply wrap_pieces_elem.
  - by rewrite set_invalid.
Qed.

(** *** [get] *)

Lemma get_loop_Ok (count : nat) :
  forall loc_int i output m,
    exists out m', EStore.get_loop loc_int i count output m = (Ok out, m').
Proof.
  induction count as [|count IH]; intros loc_int i output m; cbn [EStore.get_loop].
  - by exists output, m.
  - apply IH.
Qed.

Lemma get_loop_wf (count : nat) :
  forall loc_int i output m,
    wf_store m -> wf_store (snd (EStore.get_loop loc_int i count output m)).
Proof.
  induction count as [|count IH]; intros loc_int i output m Hm; cbn [EStore.get_loop].
  - done.
  - apply IH. by apply wf_store_materialize.
Qed.

Lemma get_lines_wf (loc : list N) (loc_int lines : Z) (m : EStore.memory) :
  wf_store m -> wf_store (snd (EStore.get_lines loc loc_int lines m)).
Proof.
  intros Hm. unfold EStore.get_lines, bind, assert.
  destruct (EStore.valid _ _); [|done].
  destruct (1 <=? lines); [|done].
  cbn [ret]. by apply get_loop_wf.
Qed.

Lemma get_wf (loc : pyval) (lines : Z) (m : EStore.memory) :
  wf_store m -> wf_store (snd (EStore.get loc lines m)).
Proof.
  intros Hm. destruct loc as [s|n]; cbn [EStore.get].
  - unfold bind at 1. unfold EStore.get_str, bind, lift.
    destruct (symbols_to_int s); [|done].
    pose proof (get_lines_wf s v lines m Hm) as H.
    destruct (EStore.get_lines s v lines m) as [[out|e] m']; exact H.
  - unfold bind at 1. unfold EStore.get_int, bind, lift.
    pose proof (get_lines_wf (int_to_symbols n (shortlinesize / symbolvalue))
                             n lines m Hm) as H.
    destruct (EStore.get_lines _ n lines m) as [[out|e] m']; [|exact H].
    destruct (symbols_to_int out); exact H.
Qed.

(** One line, and two lines, read at an address whose key is valid. *)
Lemma get_lines_1 (loc : list N) (loc_int : Z) (m : EStore.memory) :
  EStore.valid loc 2 = true ->
  EStore.get_lines loc loc_int 1 m
  = (Ok (EStore.materialize (addr loc_int) m !!! addr loc_int),
     EStore.materialize (addr loc_int) m).
Proof.
  intros Hl. unfold EStore.get_lines, bind, assert.
  change (shortlinesize / symbolvalue) with 2. rewrite Hl.
  cbn [ret Z.leb Z.compare Pos.compare Pos.compare_cont].
  change (Z.to_nat 1) with 1%nat. cbn [EStore.get_loop].
  fold (addr (loc_int + 0)). rewrite Z.add_0_r. reflexivity.
Qed.

Lemma get_lines_2 (loc : list N) (loc_int : Z) (m : EStore.memory) :
  EStore.valid loc 2 = true ->
  let m1 := EStore.materialize (addr loc_int) m in
  let m2 := EStore.materialize (addr (loc_int + 1)) m1 in
  EStore.get_lines loc loc_int 2 m
  = (Ok ((m1 !!! addr loc_int) ++ (m2 !!! addr (loc_int + 1))), m2).
Proof.
  intros Hl. unfold EStore.get_lines, bind, assert.
  change (shortlinesize / symbolvalue) with 2. rewrite Hl.
  cbn [ret Z.leb Z.compare Pos.compare Pos.compare_cont].
  change (Z.to_nat 2) with 2%nat. cbn [EStore.get_loop].
  fold (addr (loc_int + 0)). fold (addr (loc_int + 0 + 1)).
  rewrite !Z.add_0_r. reflexivity.
Qed.

Lemma addr_small (z : Z) :
  0 <= z < 1024 -> int_to_symbols z (shortlinesize / symbolvalue) = addr z.
Proof. intros Hz. unfold addr. by rewrite (Z.mod_small z) by exact Hz. Qed.

Lemma wf_store_lookup (m : EStore.memory) (k line : list N) :
  wf_store m -> m !! k = Some line ->
  is_field 4 line /\
  exists v, symbols_to_int line = Ok v /\ 0 <= v < 2 ^ 20.
Proof.
  intros Hm Hk. destruct (Hm k line Hk) as [_ [Hlen Hline]]. split; [done|].
  destruct (symbols_to_int_valid line Hline) as (v & Hv & Hr).
  rewrite Hlen in Hr. by exists v.
Qed.

Lemma get_int_1 (m : EStore.memory) (z : Z) :
  wf_store m -> 0 <= z < 1024 ->
  exists line v,
    EStore.materialize (addr z) m !! addr z = Some line /\
    symbols_to_int line = Ok v /\ 0 <= v < 2 ^ 20 /\
    EStore.get_int z 1 m = (Ok v, EStore.materialize (addr z) m).
Proof.
  intros Hm Hz.
  destruct (materialize_lookup m (addr z)) as (line & Hline & _).
  destruct (wf_store_lookup _ _ _ (wf_store_materialize m z Hm) Hline)
    as (_ & v & Hv & Hr).
  exists line, v. repeat split; try done; try lia.
  unfold EStore.get_int. rewrite addr_small by done.
  erewrite bind_Ok; [|apply get_lines_1, (valid_field 2), addr_field].
  unfold lift. by rewrite (lookup_total_correct _ _ _ Hline), Hv.
Qed.

Lemma get_int_2 (m : EStore.memory) (z : Z) :
  wf_store m -> 0 <= z < 1024 ->
  exists v, 0 <= v < 2 ^ 40 /\
            EStore.get_int z 2 m = (Ok v, operands_read z m).
Proof.
  intros Hm Hz. unfold operands_read.
  set (m1 := EStore.materialize (addr z) m).
  set (m2 := EStore.materialize (addr (z + 1)) m1).
  assert (Hm1 : wf_store m1) by by apply wf_store_materialize.
  assert (Hm2 : wf_store m2) by by apply wf_store_materialize.
  destruct (materialize_lookup m (addr z)) as (l1 & Hl1 & _). fold m1 in Hl1.
  destruct (materialize_lookup m1 (addr (z + 1))) as (l2 & Hl2 & _). fold m2 in Hl2.
  destruct (wf_store_lookup _ _ _ Hm1 Hl1) as ([Hlen1 _] & v1 & Hv1 & Hr1).
  destruct (wf_store_lookup _ _ _ Hm2 Hl2) as (_ & v2 & Hv2 & Hr2).
  exists (v1 + 32 ^ Z.of_nat (length l1) * v2). split.
  - rewrite Hlen1. change (32 ^ Z.of_nat 4) with (2 ^ 20).
    change (2 ^ 40) with (2 ^ 20 * 2 ^ 20). nia.
  - unfold EStore.get_int. rewrite addr_small by done.
    erewrite bind_Ok; [|apply get_lines_2, (valid_field 2), addr_field].
    unfold lift. fold m1 m2.
    rewrite (lookup_total_correct _ _ _ Hl1), (lookup_total_correct _ _ _ Hl2).
    by rewrite (symbols_to_int_app _ _ _ _ Hv1 Hv2).
Qed.

Lemma operands_read_wf (a : Z) (m : EStore.memory) :
  wf_store m -> wf_store (operands_read a m).
Proof. intros Hm. by do 2 apply wf_store_materialize. Qed.

Lemma materialize_idem (k : list N) (m : EStore.memory) :
  EStore.materialize k (EStore.materialize k m) = EStore.materialize k m.
Proof.
  destruct (materialize_lookup m k) as (line & Hline & _).
  by apply (materialize_present _ _ line).
Qed.

(** ** The machine *)

Lemma on_store_eq {T} (c : ES EStore.memory T) (st : State.t)
      (r : result T) (m : EStore.memory) :
  c (State.e_store st) = (r, m) ->
  ReducedMachine.on_store c st = (r, with_store st m).
Proof. intros H. unfold ReducedMachine.on_store. by rewrite H. Qed.

Lemma mod_short_range (z : Z) : 0 <= z mod max_short_line_size < 1024.
Proof. apply Z.mod_pos_bound. reflexivity. Qed.

(** The two operand reads of [applyInstruction] succeed on a well-formed
    store and leave it with the operand lines materialized. *)
Lemma fetch_operands (st : State.t) :
  wf_store (State.e_store st) ->
  let a := State.S st mod max_short_line_size in
  let m1 := EStore.materialize (addr a) (State.e_store st) in
  exists line s_data s_pair_data,
    m1 !! addr a = Some line /\ symbols_to_int line = Ok s_data /\
    0 <= s_pair_data < 2 ^ 40 /\
    ReducedMachine.on_store (EStore.get_int a 1) st
    = (Ok s_data, with_store st m1) /\
    ReducedMachine.on_store (EStore.get_int a 2) (with_store st m1)
    = (Ok s_pair_data, with_store st (operands_read a (State.e_store st))).
Proof.
  intros Hm a m1. pose proof (mod_short_range (State.S st)) as Ha. fold a in Ha.
  destruct (get_int_1 _ a Hm Ha) as (line & v1 & Hline & Hv1 & _ & Hg1).
  assert (Hm1 : wf_store m1) by by apply wf_store_materialize.
  destruct (get_int_2 _ a Hm1 Ha) as (v2 & Hr2 & Hg2).
  exists line, v1, v2. repeat split; try done; try lia.
  - by apply on_store_eq.
  - erewrite on_store_eq; [|exact Hg2]. unfold with_store. cbn.
    unfold operands_read. subst m1. by rewrite materialize_idem.
Qed.

Lemma applyInstruction_eq (st : State.t) :
  wf_store (State.e_store st) ->
  let a := State.S st mod max_short_line_size in
  let instr := int_to_symbols (State.S st) 4 in
  exists line s_data s_pair_data,
    EStore.materialize (addr a) (State.e_store st) !! addr a = Some line /\
    symbols_to_int line = Ok s_data /\
    0 <= s_pair_data < 2 ^ 40 /\
    ReducedMachine.applyInstruction st
    = ReducedMachine.case_split st instr (take 2 instr) (drop 2 instr)
        s_data s_pair_data (int_to_symbols (State.A st) 8)
        (with_store st (operands_read a (State.e_store st))).
Proof.
  intros Hm a instr.
  destruct (fetch_operands st Hm) as (line & v1 & v2 & Hl & Hv1 & Hr & Hg1 & Hg2).
  exists line, v1, v2. repeat split; try done; try lia.
  unfold ReducedMachine.applyInstruction.
  unfold bind at 1. unfold ReducedMachine.read at 1. cbv beta iota zeta.
  erewrite bind_Ok; [|exact Hg1]. erewrite bind_Ok; [|exact Hg2]. reflexivity.
Qed.

Lemma I_eq (st : State.t) :
  wf_store (State.e_store st) ->
  let c := (State.C st + 1) mod max_short_line_size in
  let m1 := EStore.materialize (addr c) (State.e_store st) in
  exists line s,
    m1 !! addr c = Some line /\ symbols_to_int line = Ok s /\ 0 <= s < 2 ^ 20 /\
    ReducedMachine.I st = (Ok tt, State.mk (State.A st) m1 c s).
Proof.
  intros Hm c m1. pose proof (mod_short_range (State.C st + 1)) as Hc. fold c in Hc.
  destruct (get_int_1 _ c Hm Hc) as (line & s & Hline & Hs & Hr & Hg).
  exists line, s. repeat split; try done; try lia.
  unfold ReducedMachine.I.
  unfold bind at 1. unfold ReducedMachine.read at 1. cbv beta iota zeta.
  unfold bind at 1. unfold ReducedMachine.set_C at 1. cbv beta iota zeta.
  unfold bind at 1. unfold ReducedMachine.read at 1. cbv beta iota zeta.
  cbn [State.A State.C State.S State.e_store]. fold c.
  erewrite bind_Ok; [|apply on_store_eq; cbn [State.e_store]; exact Hg].
  reflexivity.
Qed.

(** Encoding the value of a string of at most 4 symbols to the length of
    the string gives the string back. *)
Lemma int_to_symbols_of_value (sym : list N) (v : Z) :
  (length sym <= 4)%nat -> symbols_to_int sym = Ok v ->
  int_to_symbols v (Z.of_nat (length sym)) = sym.
Proof.
  intros Hlen Hv.
  assert (Hs : Forall (fun c => c ∈ symbols) sym).
  { clear Hlen. revert v Hv. induction sym as [|c sym IH]; intros v Hv; [constructor|].
    rewrite symbols_to_int_cons in Hv.
    destruct (index symbols c) as [k|] eqn:Hk; [|discriminate].
    destruct (symbols_to_int sym) as [v'|]; [|discriminate].
    apply index_range in Hk as [Hk <-].
    constructor; [by apply symbol_at_elem|by apply (IH v')]. }
  destruct (symbols_to_int_valid sym Hs) as (v' & Hv' & Hr).
  rewrite Hv in Hv'. injection Hv' as <-.
  assert (Hv20 : 0 <= v < 2 ^ 20).
  { split; [lia|]. eapply Z.lt_le_trans; [exact (proj2 Hr)|].
    change (2 ^ 20) with (32 ^ 4). apply Z.pow_le_mono_r; lia. }
  rewrite int_to_symbols_digits.
  change (2 ^ linesize) with (2 ^ 20). rewrite Z.mod_small by done.
  apply digits_of_value; [done|]. exact (proj2 Hv20).
Qed.

Lemma valid_Forall (s : list N) (len : Z) :
  EStore.valid s len = true -> Forall (fun c => c ∈ symbols) s.
Proof. intros H. by apply valid_spec in H as [_ H]. Qed.

(** The key of the address a short field denotes is the field itself. *)
Lemma addr_of_field (k : list N) (p : Z) :
  is_field 2 k -> symbols_to_int k = Ok p -> 0 <= p < 1024 /\ addr p = k.
Proof.
  intros [Hlen Hk] Hp.
  destruct (symbols_to_int_valid k Hk) as (p' & Hp' & Hr).
  rewrite Hp in Hp'. injection Hp' as <-. rewrite Hlen in Hr.
  change (32 ^ Z.of_nat 2) with 1024 in Hr. split; [done|].
  unfold addr. rewrite (Z.mod_small p) by exact Hr.
  change (shortlinesize / symbolvalue) with (Z.of_nat 2). rewrite <- Hlen.
  apply int_to_symbols_of_value; [lia|done].
Qed.

(** The value of a line is its line pair plus 1024 times its function
    symbols, so the operand address is the value of the line pair. *)
Lemma line_value (line_pair func_sym : list N) (s : Z) :
  is_field 4 (line_pair ++ func_sym) -> length line_pair = 2%nat ->
  symbols_to_int (line_pair ++ func_sym) = Ok s ->
  int_to_symbols s 4 = line_pair ++ func_sym /\
  addr (s mod max_short_line_size) = line_pair.
Proof.
  intros [Hlen Hs] Hlp Hv. split.
  - change 4 with (Z.of_nat 4). rewrite <- Hlen.
    apply int_to_symbols_of_value; [lia|done].
  - apply Forall_app in Hs as [Hs1 Hs2].
    destruct (symbols_to_int_valid _ Hs1) as (p & Hp & Hr).
    destruct (symbols_to_int_valid _ Hs2) as (f & Hf & _).
    rewrite (symbols_to_int_app _ _ _ _ Hp Hf) in Hv. injection Hv as <-.
    rewrite Hlp in Hr |- *. change (32 ^ Z.of_nat 2) with 1024 in Hr |- *.
    change max_short_line_size with 1024.
    replace ((p + 1024 * f) mod 1024) with p
      by (apply (Z.mod_unique_pos _ 1024 f); lia).
    by apply addr_of_field.
Qed.

(** ** The run loop *)

(** A run that has ended with some fuel ends the same way with more. *)
Lemma run_loop_fuel (fuel : nat) :
  forall extra steps n st,
    ReducedMachine.run_loop fuel steps n st <> ReducedMachine.OutOfFuel ->
    ReducedMachine.run_loop (fuel + extra) steps n st
    = ReducedMachine.run_loop fuel steps n st.
Proof.
  induction fuel as [|fuel IH]; intros extra steps n st H; [done|].
  cbn [ReducedMachine.run_loop Nat.add] in H |- *.
  destruct ((n <? steps) || (steps =? 0)); [|done].
  destruct (ReducedMachine.next st) as [[[]|e] st']; [|done].
  destruct (decide (State.C st = State.C st')); [done|]. by apply IH.
Qed.

(** The counter a run reports is at least the one it was started with. *)
Lemma run_loop_counter (fuel : nat) :
  forall steps n st,
    match ReducedMachine.run_loop fuel steps n st with
    | ReducedMachine.HaltingLoop n' _ | ReducedMachine.StepsDone n' _
    | ReducedMachine.Raised _ n' _ => n <= n'
    | ReducedMachine.OutOfFuel => True
    end.
Proof.
  induction fuel as [|fuel IH]; intros steps n st; [done|].
  cbn [ReducedMachine.run_loop].
  destruct ((n <? steps) || (steps =? 0)); [|lia].
  destruct (ReducedMachine.next st) as [[[]|e] st']; [|lia].
  destruct (decide (State.C st = State.C st')); [lia|].
  specialize (IH steps (n + 1) st').
  destruct (ReducedMachine.run_loop fuel steps (n + 1) st'); lia.
Qed.

(** The run stops on a halting loop in the cycle it is about to execute
    exactly when the cycle is entered, returns, and leaves the program
    counter at the value it had before the fetch. *)
Lemma halting_loop_rule (fuel : nat) (steps n : Z) (st st' : State.t) :
  ReducedMachine.run_loop (S fuel) steps n st = ReducedMachine.HaltingLoop n st'
  <-> ((n <? steps) || (steps =? 0) = true /\
       ReducedMachine.next st = (Ok tt, st') /\
       State.C st = State.C st').
Proof.
  cbn [ReducedMachine.run_loop].
  destruct ((n <? steps) || (steps =? 0)).
  - destruct (ReducedMachine.next st) as [[[]|e] st1].
    + destruct (decide (State.C st = State.C st1)) as [Heq|Hne].
      * split; [by intros [= <-]|by intros (_ & [= <-] & _)].
      * split.
        -- intros H. pose proof (run_loop_counter fuel steps (n + 1) st1) as Hc.
           rewrite H in Hc. lia.
        -- intros (_ & [= <-] & ?). contradiction.
    + split; [discriminate|by intros (_ & [=] & _)].
  - split; [discriminate|by intros ([=] & _)].
Qed.

(** * The claims *)

(** ** Symbol codec *)

(** C5, counterexample: [int_to_symbols(32, 1)] is the two symbols of 32,
    not a string of one symbol: [ljust] pads and never truncates. *)
Lemma int_to_symbols_keeps_high_symbols :
  int_to_symbols 32 1 = py "/E" /\ length (int_to_symbols 32 1) <> 1%nat.
Proof. split; [reflexivity|discriminate]. Qed.

(** C5, as amended: for an unsigned [n] below 2^53 and any width, the
    encoding is made of the base-32 digits of [n mod 2^20], least
    significant first; it consists of the [k] significant digits (at most 4),
    right-padded with the zero symbol to [size] symbols; its length is
    [size] when the residue fits and [k] otherwise: nothing is dropped, and
    for a width of at most 205 the encoding decodes to the residue (a
    string of 206 symbols makes [symbols_to_int] call [math.pow(2, 1025)],
    which raises an [OverflowError]). *)
Theorem int_to_symbols_shape (n size : Z) :
  0 <= n < 2 ^ 53 ->
  let r := n mod 2 ^ 20 in
  let out := int_to_symbols n size in
  (forall i : nat, (i < length out)%nat ->
     out !! i = Some (symbol_at (r / 32 ^ Z.of_nat i mod 32))) /\
  (exists k : nat,
     r < 32 ^ Z.of_nat k /\
     (forall j : nat, r < 32 ^ Z.of_nat j -> (k <= j)%nat) /\
     (k <= 4)%nat /\
     out = take k out ++ replicate (Z.to_nat (size - Z.of_nat k)) (symbol_at 0) /\
     Z.of_nat (length out) = Z.max size (Z.of_nat k)) /\
  (r < 32 ^ size -> Z.of_nat (length out) = size) /\
  (0 <= size -> 32 ^ size <= r -> size < Z.of_nat (length out)) /\
  (size <= 205 -> symbols_to_int out = Ok r).
Proof.
  intros _ r out. split; [|split; [|split; [|split]]].
  - intros i Hi. by apply int_to_symbols_lookup.
  - apply int_to_symbols_width.
  - intros Hr. apply int_to_symbols_length; [|done].
    destruct (decide (0 <= size)); [done|].
    rewrite Z.pow_neg_r in Hr by lia.
    pose proof (Z.mod_pos_bound n (2 ^ 20) eq_refl). subst r. lia.
  - intros Hs Hr.
    destruct (int_to_symbols_width n size) as (k & Hk & _ & _ & _ & Hlen).
    fold out in Hlen. rewrite Hlen.
    enough (size < Z.of_nat k) by lia.
    destruct (decide (size < Z.of_nat k)); [done|].
    assert (32 ^ Z.of_nat k <= 32 ^ size) by (apply Z.pow_le_mono_r; lia).
    change (2 ^ linesize) with (2 ^ 20) in Hk. subst r. lia.
  - intros _. apply int_to_symbols_value.
Qed.

Lemma int_to_symbols_shape_witness :
  let out := int_to_symbols 1057 2 in
  out = py "EEE" /\ symbols_to_int out = Ok (1057 mod 2 ^ 20).
Proof.
  split; [reflexivity|].
  apply (int_to_symbols_shape 1057 2); lia.
Defined.

(** C4, counterexample: the five symbols [////E] are over the alphabet and
    decode to 2^20, which encodes to five zero symbols. *)
Lemma symbols_roundtrip_fails_beyond_a_line :
  Forall (fun c => c ∈ symbols) (py "////E") /\
  symbols_to_int (py "////E") = Ok (2 ^ 20) /\
  int_to_symbols (2 ^ 20) (Z.of_nat (length (py "////E"))) = py "/////" /\
  int_to_symbols (2 ^ 20) (Z.of_nat (length (py "////E"))) <> py "////E".
Proof.
  split; [|split; [reflexivity|split; [reflexivity|discriminate]]].
  change (py "////E") with (replicate 4 (symbol_at 0) ++ [symbol_at 1]).
  apply Forall_app. split; [apply Forall_replicate|apply Forall_singleton];
    by apply symbol_at_elem.
Qed.

(** C4, as amended: for [n] in [0, 2^20) and a width [w] with
    [n + 1 <= 32^w] (that is, [w >= ceil(log32(n+1))]) and [w <= 205],
    decoding the encoding of [n] gives [n]; and for a string [s] over the
    alphabet of at most 205 symbols whose value is below 2^20, as the value
    of every string of at most 4 symbols (one line) is, encoding the value
    of [s] to the length of [s] gives [s].  The bound 205 is where the code
    stops decoding: on a string of 206 symbols [symbols_to_int] calls
    [math.pow(2, 1025)], which raises an [OverflowError]; up to it the
    values here are below 2^20 and the padding adds zeros, so the doubles
    of the code are exact. *)
Theorem codec_roundtrip (n w : Z) (s : list N) (v : Z) :
  0 <= n < 2 ^ 20 -> n + 1 <= 32 ^ w -> w <= 205 ->
  Forall (fun c => c ∈ symbols) s -> (length s <= 205)%nat ->
  symbols_to_int s = Ok v -> (length s <= 4)%nat \/ v < 2 ^ 20 ->
  symbols_to_int (int_to_symbols n w) = Ok n /\
  int_to_symbols v (Z.of_nat (length s)) = s.
Proof.
  intros Hn _ _ Hs _ Hv Hsmall. split.
  - rewrite int_to_symbols_value. f_equal. by apply Z.mod_small.
  - destruct (symbols_to_int_valid s Hs) as (v' & Hv' & Hr).
    rewrite Hv in Hv'. injection Hv' as <-.
    assert (Hv20 : 0 <= v < 2 ^ 20).
    { split; [lia|]. destruct Hsmall as [Hlen|Hlt]; [|done].
      eapply Z.lt_le_trans; [exact (proj2 Hr)|].
      change (2 ^ 20) with (32 ^ 4). apply Z.pow_le_mono_r; lia. }
    rewrite int_to_symbols_digits.
    change (2 ^ linesize) with (2 ^ 20). rewrite Z.mod_small by done.
    apply digits_of_value; [done|]. exact (proj2 Hv20).
Qed.

Lemma codec_roundtrip_witness :
  symbols_to_int (int_to_symbols 1000 2) = Ok 1000 /\
  int_to_symbols 1 (Z.of_nat (length (py "E////"))) = py "E////".
Proof.
  apply (codec_roundtrip 1000 2 (py "E////") 1).
  - lia.
  - vm_compute. discriminate.
  - lia.
  - by apply (valid_Forall _ 5).
  - cbn. lia.
  - reflexivity.
  - right. lia.
Defined.

(** ** Electronic store *)

(** C6: [set] raises (the [AssertionError] of a failed validity check) if
    and only if the address is longer than 2 symbols, the value is longer
    than 8 symbols, or one of them has a character outside the alphabet; and
    when it raises, the memory is what it was before the call. *)
Theorem set_raises_iff_malformed (m : EStore.memory) (loc val : list N) :
  ((exists e m', EStore.set loc val m = (Raise e, m')) <->
   ((2 < length loc)%nat \/ (8 < length val)%nat \/
    Exists (fun c => c ∉ symbols) (loc ++ val))) /\
  (forall e m', EStore.set loc val m = (Raise e, m') ->
                e = AssertionError /\ m' = m).
Proof.
  destruct (EStore.valid loc 2 && EStore.valid val 8) eqn:E.
  - apply andb_true_iff in E as [Hl Hv].
    destruct (set_valid m loc val Hl Hv) as (loc_int & _ & ->).
    destruct (set_loop_Ok (wrap val 4) loc_int 0 m) as [m' ->].
    apply valid_spec in Hl as [Hl1 Hl2]. apply valid_spec in Hv as [Hv1 Hv2].
    split; [split|].
    + intros (e & m'' & [=]).
    + intros [H|[H|H]]; [lia|lia|]. exfalso.
      apply Exists_app in H as [H|H];
        eapply (Exists_not_Forall (fun c => c ∈ symbols)); eassumption.
    + intros e m'' [=].
  - rewrite set_invalid by done. split; [split|].
    + intros _. apply andb_false_iff in E.
      destruct (decide (2 < length loc)%nat) as [|Hl1]; [by left|].
      destruct (decide (8 < length val)%nat) as [|Hv1]; [by right; left|].
      right; right. apply Exists_app.
      destruct E as [E|E]; [left|right];
        apply (not_Forall_Exists (fun c => c ∈ symbols));
        intros HF; apply not_true_iff_false in E; apply E, valid_spec;
        (split; [lia|done]).
    + intros _. by exists AssertionError, m.
    + by intros e m' [= <- <-].
Qed.

(** C9: reading with [get] an address that has no line yet returns the line
    of four zero symbols and keeps it in the store under the key of the
    address; reading the address again returns the same line and leaves the
    store as the first read left it.  The same holds for a read at the
    numeric address, whose result is the integer 0. *)
Theorem get_default_fill (m : EStore.memory) (loc : list N) (v : Z) :
  EStore.valid loc 2 = true -> symbols_to_int loc = Ok v ->
  m !! addr v = None ->
  let zero_line := replicate 4 (symbol_at 0) in
  let m1 := <[addr v := zero_line]> m in
  EStore.get (PStr loc) 1 m = (Ok (PStr zero_line), m1) /\
  EStore.get (PStr loc) 1 m1 = (Ok (PStr zero_line), m1) /\
  EStore.get (PNum v) 1 m = (Ok (PNum 0), m1) /\
  EStore.get (PNum v) 1 m1 = (Ok (PNum 0), m1).
Proof.
  intros Hl Hv Hm zero_line m1.
  assert (Hm1 : m1 !! addr v = Some zero_line) by apply lookup_insert_eq.
  assert (Hlines : forall loc', EStore.valid loc' 2 = true ->
            EStore.get_lines loc' v 1 m = (Ok zero_line, m1) /\
            EStore.get_lines loc' v 1 m1 = (Ok zero_line, m1)).
  { intros loc' Hl'. rewrite !get_lines_1 by done.
    rewrite (materialize_absent m) by done.
    rewrite (materialize_present m1 _ zero_line) by done.
    change (py "////") with zero_line. fold m1.
    by rewrite (lookup_total_correct _ _ _ Hm1). }
  assert (Hr : 0 <= v < 1024).
  { apply valid_spec in Hl as [Hlen Hs].
    destruct (symbols_to_int_valid loc Hs) as (v' & Hv' & Hr).
    rewrite Hv in Hv'. injection Hv' as <-.
    split; [lia|]. eapply Z.lt_le_trans; [exact (proj2 Hr)|].
    change 1024 with (32 ^ 2). apply Z.pow_le_mono_r; lia. }
  destruct (Hlines loc Hl) as [Hs1 Hs2].
  destruct (Hlines (addr v) (valid_field 2 _ (addr_field v))) as [Hn1 Hn2].
  cbn [EStore.get]. unfold EStore.get_str, EStore.get_int.
  rewrite addr_small by done. unfold bind, lift, ret.
  by rewrite Hv, Hs1, Hs2, Hn1, Hn2.
Qed.

Lemma get_default_fill_witness :
  EStore.get (PStr (py "E")) 1 ∅
  = (Ok (PStr (py "////")), <[py "E/" := py "////"]> ∅) /\
  EStore.get (PStr (py "E")) 1 (<[py "E/" := py "////"]> ∅)
  = (Ok (PStr (py "////")), <[py "E/" := py "////"]> ∅).
Proof.
  destruct (get_default_fill ∅ (py "E") 1) as (H1 & H2 & _);
    [reflexivity|reflexivity|reflexivity|].
  split; [exact H1|exact H2].
Defined.

Lemma apply_op_wf (m : EStore.memory) (o : store_op) :
  wf_store m -> wf_store (apply_op m o).
Proof.
  intros Hm. destruct o; cbn [apply_op]; [by apply set_wf|by apply get_wf].
Qed.

Lemma apply_ops_wf (ops : list store_op) :
  forall m, wf_store m -> wf_store (apply_ops ops m).
Proof.
  unfold apply_ops. induction ops as [|o ops IH]; intros m Hm; cbn [fold_left].
  - done.
  - apply IH. by apply apply_op_wf.
Qed.

(** C10: after any sequence of calls of [set] and [get] on a store that
    started empty, whether they returned or raised, every key of the memory
    is a string of exactly 2 symbols of the alphabet and every value a
    string of exactly 4. *)
Theorem store_well_formed (ops : list store_op) (k line : list N) :
  apply_ops ops ∅ !! k = Some line ->
  (length k = 2%nat /\ Forall (fun c => c ∈ symbols) k) /\
  (length line = 4%nat /\ Forall (fun c => c ∈ symbols) line).
Proof.
  intros H. exact (apply_ops_wf ops ∅ wf_store_empty k line H).
Qed.

Lemma store_well_formed_witness :
  (length (py "@/") = 2%nat /\ Forall (fun c => c ∈ symbols) (py "@/")) /\
  (length (py "E///") = 4%nat /\ Forall (fun c => c ∈ symbols) (py "E///")).
Proof.
  apply (store_well_formed
           [op_set (py "E") (py "ABCDE"); op_get (PNum 1023) 2;
            op_set (py "E/") (py "ABCDEFGHIJ"); op_get (PStr (py "?")) 1]).
  reflexivity.
Defined.

(** ** Execution *)

Lemma dom_materialize (k : list N) (m : EStore.memory) :
  dom (EStore.materialize k m) = {[k]} ∪ dom m.
Proof.
  unfold EStore.materialize. destruct (m !! k) eqn:E.
  - apply elem_of_dom_2 in E. set_solver.
  - by rewrite dom_insert_L.
Qed.

(** C8, counterexample: with the no-op [E/T£] fetched from address 0 of a
    store that holds this one line, executing it adds the lines of
    addresses 1 and 2 to the store: [dump] has three lines after the
    execution and one before. *)
Lemma no_op_changes_the_store :
  let m : EStore.memory := <[py "//" := py "E/T" ++ [163%N]]> ∅ in
  let fetched := snd (ReducedMachine.I (State.init 0 m)) in
  let executed := snd (ReducedMachine.applyInstruction fetched) in
  fst (ReducedMachine.applyInstruction fetched) = Ok tt /\
  State.e_store fetched = m /\
  State.e_store executed
  = <[py "@/" := py "////"]> (<[py "E/" := py "////"]> m) /\
  State.e_store executed <> State.e_store fetched /\
  length (EStore.dump (State.e_store fetched)) = 1%nat /\
  length (EStore.dump (State.e_store executed)) = 3%nat.
Proof.
  repeat split; try (vm_compute; reflexivity).
  intros Heq.
  assert (H : State.e_store
                (snd (ReducedMachine.applyInstruction
                        (snd (ReducedMachine.I
                                (State.init 0 (<[py "//" := py "E/T" ++ [163%N]]> ∅))))))
              !! py "E/" = Some (py "////")) by (vm_compute; reflexivity).
  rewrite Heq in H. vm_compute in H. discriminate.
Qed.

(** C8, as amended: executing the no-op (on a well-formed store) returns
    and leaves the accumulator, the current-instruction register and the
    program counter as they were; every line the store held is kept; the
    store changes only in that the lines at the operand address
    [S mod 1024] and at the address after it are materialized, as zero
    lines, when they were absent. *)
Theorem no_op_effect (st : State.t) :
  wf_store (State.e_store st) ->
  drop 2 (int_to_symbols (State.S st) 4) = py "T" ++ [163%N] ->
  let a := State.S st mod 1024 in
  exists st',
    ReducedMachine.applyInstruction st = (Ok tt, st') /\
    State.A st' = State.A st /\ State.C st' = State.C st /\
    State.S st' = State.S st /\
    State.e_store st'
    = EStore.materialize (addr (a + 1))
        (EStore.materialize (addr a) (State.e_store st)) /\
    (forall k line, State.e_store st !! k = Some line ->
                    State.e_store st' !! k = Some line) /\
    (forall k line, State.e_store st' !! k = Some line ->
                    State.e_store st !! k = Some line \/
                    ((k = addr a \/ k = addr (a + 1)) /\ line = py "////")) /\
    dom (State.e_store st') = {[addr a; addr (a + 1)]} ∪ dom (State.e_store st).
Proof.
  intros Hm Hf a.
  destruct (applyInstruction_eq st Hm) as (line & v1 & v2 & _ & _ & _ & ->).
  unfold ReducedMachine.case_split. rewrite Hf.
  exists (with_store st (operands_read a (State.e_store st))).
  split; [reflexivity|]. repeat split.
  - intros k l Hk. cbn [with_store State.e_store]. unfold operands_read.
    by do 2 apply materialize_keeps.
  - intros k l. cbn [with_store State.e_store]. unfold operands_read.
    unfold EStore.materialize at 1.
    destruct (EStore.materialize (addr a) (State.e_store st) !! addr (a + 1)) eqn:E1.
    + unfold EStore.materialize.
      destruct (State.e_store st !! addr a) eqn:E0; [by left|].
      rewrite lookup_insert. destruct (decide (addr a = k)) as [<-|]; [|by left].
      intros [= <-]. right. split; [by left|done].
    + rewrite lookup_insert. destruct (decide (addr (a + 1) = k)) as [<-|].
      { intros [= <-]. right. split; [by right|done]. }
      unfold EStore.materialize.
      destruct (State.e_store st !! addr a) eqn:E0; [by left|].
      rewrite lookup_insert. destruct (decide (addr a = k)) as [<-|]; [|by left].
      intros [= <-]. right. split; [by left|done].
  - cbn [with_store State.e_store]. unfold operands_read.
    rewrite !dom_materialize. set_solver.
Qed.

Lemma no_op_effect_witness :
  let st := State.mk 7 (<[py "//" := py "E/T" ++ [163%N]]> ∅) 0 1032193 in
  exists st',
    ReducedMachine.applyInstruction st = (Ok tt, st') /\
    State.A st' = 7 /\ State.C st' = 0 /\ State.S st' = 1032193.
Proof.
  intros st.
  assert (Hm : wf_store (State.e_store st)).
  { apply wf_store_insert; [apply wf_store_empty|apply (addr_field 0)|].
    split; [reflexivity|]. by apply (valid_Forall _ 4). }
  destruct (no_op_effect st Hm eq_refl) as (st' & H & HA & HC & HS & _).
  exists st'. split; [exact H|]. split; [exact HA|]. split; [exact HC|exact HS].
Defined.

(** C7, counterexample: the exception the negate instruction [//TF] raises
    and the one the unknown instruction [//GG] raises are of the same class,
    [InvalidInstructionError]; they differ in their message only. *)
Lemma negate_raises_InvalidInstructionError :
  let negate := ReducedMachine.next (State.init 0 (<[py "//" := py "//TF"]> ∅)) in
  let unknown := ReducedMachine.next (State.init 0 (<[py "//" := py "//GG"]> ∅)) in
  fst negate = Raise (InvalidInstructionError (py "TF currently unimplemented")) /\
  fst unknown
  = Raise (InvalidInstructionError (py "Instruction //GG does not exist!")) /\
  class_of (InvalidInstructionError (py "TF currently unimplemented"))
  = class_of (InvalidInstructionError (py "Instruction //GG does not exist!")).
Proof. repeat split; vm_compute; reflexivity. Qed.

(** C7, as amended: executing the negate instruction raises an
    [InvalidInstructionError], the class of exception an unrecognized
    function code raises too; the first carries the message
    [TF currently unimplemented], the second
    [Instruction <the 4 symbols> does not exist!], and the two messages are
    never equal, so a caller can tell the two apart by the message alone. *)
Theorem negate_and_unknown_instruction (st : State.t) :
  wf_store (State.e_store st) ->
  let instr := int_to_symbols (State.S st) 4 in
  let unimplemented := InvalidInstructionError (py "TF currently unimplemented") in
  let invalid :=
    InvalidInstructionError (py "Instruction " ++ instr ++ py " does not exist!") in
  (drop 2 instr = py "TF" ->
   exists st', ReducedMachine.applyInstruction st = (Raise unimplemented, st')) /\
  (drop 2 instr ∉ function_codes ->
   exists st', ReducedMachine.applyInstruction st = (Raise invalid, st')) /\
  class_of unimplemented = class_of invalid /\
  unimplemented <> invalid.
Proof.
  intros Hm instr unimplemented invalid.
  destruct (applyInstruction_eq st Hm) as (line & v1 & v2 & _ & _ & _ & ->).
  fold instr. unfold ReducedMachine.case_split.
  split; [|split; [|split]].
  - intros ->. eexists. reflexivity.
  - intros Hf.
    repeat (rewrite decide_False;
            [|intros Heq; apply Hf; rewrite Heq; unfold function_codes;
              apply list_elem_of_In; cbn [In]; tauto]).
    eexists. reflexivity.
  - reflexivity.
  - discriminate.
Qed.

Lemma negate_and_unknown_instruction_witness :
  let st := State.mk 0 (<[py "//" := py "//TF"]> ∅) 0 442368 in
  exists st',
    ReducedMachine.applyInstruction st
    = (Raise (InvalidInstructionError (py "TF currently unimplemented")), st').
Proof.
  intros st.
  assert (Hm : wf_store (State.e_store st)).
  { apply wf_store_insert; [apply wf_store_empty|apply (addr_field 0)|].
    split; [reflexivity|]. by apply (valid_Forall _ 4). }
  exact (proj1 (negate_and_unknown_instruction st Hm) eq_refl).
Defined.

(** C1, counterexample: the one-line program [///P] at address 0 is an
    unconditional branch whose operand and whose target are its own address,
    0.  Its cycle leaves the program counter at 0, which is not the 1023 it
    had before the fetch, so no halting loop is detected; the second cycle
    fetches the zero line of address 1 and the run ends there with an
    [InvalidInstructionError].  The same branch placed at address 1023, with
    itself as operand and target, is never reached: the first fetch is from
    address 0. *)
Lemma branch_to_itself_is_no_halting_loop :
  let st0 := State.init 0 (<[py "//" := py "///P"]> ∅) in
  fst (ReducedMachine.next st0) = Ok tt /\
  State.C st0 = 1023 /\ State.C (snd (ReducedMachine.next st0)) = 0 /\
  (exists st,
     main 2 [(py "//", py "///P")] 0
     = Some (ReducedMachine.Raised
               (InvalidInstructionError (py "Instruction //// does not exist!"))
               1 st) /\
     State.A st = 0) /\
  (exists st,
     main 1 [([163%N; 163%N], [163%N; 163%N] ++ py "/P")] 0
     = Some (ReducedMachine.Raised
               (InvalidInstructionError (py "Instruction //// does not exist!"))
               0 st)).
Proof.
  split; [vm_compute; reflexivity|].
  split; [vm_compute; reflexivity|].
  split; [vm_compute; reflexivity|].
  split.
  - eexists. split; vm_compute; reflexivity.
  - eexists. vm_compute. reflexivity.
Qed.

(** C1, as amended: when the line at address 0 is an unconditional branch
    whose target (the low 10 bits of the line its operand addresses) is
    1023, the program counter before the fetch and one less than the
    address of the branch, the run from the initial state (accumulator 0,
    program counter 1023) ends by halting-loop detection after exactly one
    executed cycle with the accumulator still 0, for any step bound that
    lets a cycle run and any fuel that does; and a run stops on a halting
    loop exactly when a cycle returns with the program counter it had
    before its fetch. *)
Theorem halting_loop_detection
        (m : EStore.memory) (line_pair target : list N) (t : Z)
        (fuel : nat) (steps : Z) :
  wf_store m ->
  m !! py "//" = Some (line_pair ++ py "/P") ->
  m !! line_pair = Some target ->
  symbols_to_int target = Ok t -> t mod 1024 = 1023 ->
  steps = 0 \/ 1 <= steps ->
  (exists st,
     ReducedMachine.run (S fuel) steps (State.init 0 m)
     = ReducedMachine.HaltingLoop 0 st /\
     ReducedMachine.cycles (ReducedMachine.HaltingLoop 0 st) = Some 1 /\
     State.A st = 0 /\ State.C st = State.C (State.init 0 m)) /\
  (forall fuel' steps' n st st',
     ReducedMachine.run_loop (S fuel') steps' n st = ReducedMachine.HaltingLoop n st'
     <-> ((n <? steps') || (steps' =? 0) = true /\
          ReducedMachine.next st = (Ok tt, st') /\
          State.C st = State.C st')).
Proof.
  intros Hm Hline Htarget Ht Ht1023 Hsteps.
  split; [|intros; apply halting_loop_rule].
  set (st0 := State.init 0 m).
  (* the fetch *)
  destruct (I_eq st0 Hm) as (line & s & Hl & Hs & _ & HI).
  change ((State.C st0 + 1) mod max_short_line_size) with 0 in Hl, HI.
  change (addr 0) with (py "//") in Hl, HI. cbn [st0 State.init State.e_store State.A] in Hl, HI.
  rewrite (materialize_present m _ _ Hline) in Hl, HI.
  rewrite Hline in Hl. injection Hl as <-.
  destruct (Hm _ _ Hline) as [_ Hfield].
  assert (Hlp : length line_pair = 2%nat).
  { destruct Hfield as [Hlen _]. rewrite length_app in Hlen. cbn in Hlen. lia. }
  destruct (line_value line_pair (py "/P") s Hfield Hlp Hs) as [Hinstr Haddr].
  (* the execution *)
  set (st1 := State.mk 0 m 0 s) in HI.
  destruct (applyInstruction_eq st1 Hm)
    as (line' & s_data & s_pair_data & Hl' & Hd & _ & Happly).
  cbn [st1 State.S State.e_store State.A] in Hl', Happly.
  rewrite Haddr in Hl'. rewrite (materialize_present m _ _ Htarget) in Hl'.
  rewrite Htarget in Hl'. injection Hl' as <-.
  rewrite Ht in Hd. injection Hd as <-.
  rewrite Hinstr in Happly.
  rewrite drop_app_length' in Happly by done.
  unfold ReducedMachine.case_split in Happly.
  assert (Hnext : exists st2,
            ReducedMachine.next st0 = (Ok tt, st2) /\
            State.A st2 = 0 /\ State.C st2 = 1023).
  { unfold ReducedMachine.next. erewrite bind_Ok; [|exact HI].
    rewrite Happly.
    destruct (decide (py "/P" = py "/H")) as [Hc|_]; [discriminate Hc|].
    destruct (decide (py "/P" = py "/P")) as [_|Hc]; [|contradiction].
    unfold ReducedMachine.set_C. eexists. split; [reflexivity|].
    cbn [with_store State.A State.C]. split; [reflexivity|].
    change max_short_line_size with 1024. exact Ht1023. }
  destruct Hnext as (st2 & Hnext & HA & HC).
  exists st2. repeat split; [|done|done].
  unfold ReducedMachine.run. apply halting_loop_rule. split; [|split; [done|]].
  - destruct Hsteps as [->|H1]; [reflexivity|].
    apply orb_true_iff. left. apply Z.ltb_lt. lia.
  - by rewrite HC.
Qed.

Lemma halting_loop_detection_witness :
  exists st,
    main 1 [(py "//", py "E//P"); (py "E/", [163%N; 163%N])] 0
    = Some (ReducedMachine.HaltingLoop 0 st) /\
    State.A st = 0 /\ State.C st = 1023.
Proof.
  set (m := <[py "E/" := [163%N; 163%N] ++ py "//"]>
              (<[py "//" := py "E//P"]> ∅) : EStore.memory).
  assert (Hm : wf_store m).
  { apply wf_store_insert; [apply wf_store_insert|..];
      [apply wf_store_empty|apply (addr_field 0)| |apply (addr_field 1)|];
      (split; [reflexivity|]); by apply (valid_Forall _ 4). }
  destruct (halting_loop_detection m (py "E/") ([163%N; 163%N] ++ py "//")
              1023 0 0 Hm eq_refl eq_refl eq_refl eq_refl (or_introl eq_refl))
    as [(st & Hrun & _ & HA & HC) _].
  exists st. split; [|split; [exact HA|exact HC]].
  unfold main.
  change (EStore.load [(py "//", py "E//P"); (py "E/", [163%N; 163%N])] ∅)
    with (@Ok unit tt, m).
  cbv beta iota. by rewrite Hrun.
Defined.

(** What the add and the subtract instruction do to the accumulator on a
    well-formed store: the operand, a value in [0, 2^40), is added to it or
    subtracted from it, and the result is not reduced. *)
Lemma add_subtract_effect (st : State.t) (sign : Z) :
  wf_store (State.e_store st) ->
  (sign = 1 /\ drop 2 (int_to_symbols (State.S st) 4) = py "TI") \/
  (sign = -1 /\ drop 2 (int_to_symbols (State.S st) 4) = py "TN") ->
  exists st' s_pair_data,
    ReducedMachine.applyInstruction st = (Ok tt, st') /\
    0 <= s_pair_data < 2 ^ 40 /\
    State.A st' = State.A st + sign * s_pair_data.
Proof.
  intros Hm Hf.
  destruct (applyInstruction_eq st Hm) as (line & v1 & v2 & _ & _ & Hr & ->).
  unfold ReducedMachine.case_split.
  exists (State.mk (State.A st + sign * v2)
                   (operands_read (State.S st mod max_short_line_size)
                                  (State.e_store st))
                   (State.C st) (State.S st)), v2.
  assert (Hv : v2 mod max_acc_size = v2) by (apply Z.mod_small; exact Hr).
  destruct Hf as [[-> ->]|[-> ->]]; (split; [|split; [done|reflexivity]]).
  - repeat (rewrite decide_False by discriminate). rewrite decide_True by done.
    unfold ReducedMachine.set_A, with_store.
    cbn [State.A State.C State.S State.e_store].
    rewrite Hv. by rewrite Z.mul_1_l.
  - repeat (rewrite decide_False by discriminate). rewrite decide_True by done.
    unfold ReducedMachine.set_A, with_store.
    cbn [State.A State.C State.S State.e_store].
    rewrite Hv. by replace (-1 * v2) with (- v2) by lia.
Qed.

(** C2, the code at the failing inputs.  The first program loads 2^40 - 1
    and adds 1: after its two cycles the accumulator is 2^40, not 0.  The
    second subtracts 1 from the initial accumulator 0: after its cycle the
    accumulator is -1, not 2^40 - 1.  Neither is in [0, 2^40). *)
Theorem add_and_subtract_do_not_reduce :
  let pounds := replicate 8 163%N in
  (exists st,
     main 3 [(py "//", py ":/T/"); (py "E/", py "I/TI");
             (py ":/", pounds); (py "I/", py "E")] 2
     = Some (ReducedMachine.StepsDone 2 st) /\
     State.A st = 2 ^ 40 /\ State.A st <> (2 ^ 40 - 1 + 1) mod 2 ^ 40) /\
  (exists st,
     main 2 [(py "//", py "I/TN"); (py "I/", py "E")] 1
     = Some (ReducedMachine.StepsDone 1 st) /\
     State.A st = -1 /\ State.A st <> (0 - 1) mod 2 ^ 40).
Proof.
  split; eexists; (split; [vm_compute; reflexivity|]);
    split; vm_compute; congruence.
Qed.

(** C3, the code at the failing input.  The program loads 2^20, stores the
    accumulator at address 8 and loads the two lines at address 8.  The
    store writes eight zero symbols, the encoding of 2^20 mod 2^20, so the
    load puts 0 in the accumulator, not 2^20.  For every accumulator value
    the eight symbols the store instruction writes decode to the value
    modulo 2^20. *)
Theorem store_then_load_loses_high_bits :
  let code := [(py "//", py ":/T/"); (py "E/", py "8//S"); (py "@/", py "8/T/");
               (py ":/", py "////E")] in
  (exists st,
     main 2 code 1 = Some (ReducedMachine.StepsDone 1 st) /\ State.A st = 2 ^ 20) /\
  (exists st,
     main 3 code 2 = Some (ReducedMachine.StepsDone 2 st) /\
     State.A st = 2 ^ 20 /\ State.S st = 2 ^ 20 mod 2 ^ 20 /\
     int_to_symbols (State.A st) 8 = py "////////" /\
     State.e_store st !! py "8/" = Some (py "////") /\
     State.e_store st !! py "D/" = Some (py "////")) /\
  (exists st,
     main 4 code 3 = Some (ReducedMachine.StepsDone 3 st) /\
     State.A st = 0 /\ State.A st <> 2 ^ 20 mod 2 ^ 40) /\
  (forall V : Z,
     symbols_to_int (int_to_symbols V max_acc_symbols) = Ok (V mod 2 ^ 20)).
Proof.
  split; [|split; [|split]].
  - eexists. split; vm_compute; reflexivity.
  - eexists. split; [vm_compute; reflexivity|].
    repeat split; vm_compute; reflexivity.
  - eexists. split; [vm_compute; reflexivity|].
    split; vm_compute; congruence.
  - intros V. apply int_to_symbols_value.
Qed.

(** * Further properties *)

(** ** Auxiliary facts *)

Lemma symbols_to_int_Ok_inv (sym : list N) (v : Z) :
  symbols_to_int sym = Ok v ->
  Forall (fun c => c ∈ symbols) sym /\ 0 <= v < 32 ^ Z.of_nat (length sym).
Proof.
  intros Hv.
  assert (Hs : Forall (fun c => c ∈ symbols) sym).
  { revert v Hv. induction sym as [|c sym IH]; intros v Hv; [constructor|].
    rewrite symbols_to_int_cons in Hv.
    destruct (index symbols c) as [k|] eqn:Hk; [|discriminate].
    destruct (symbols_to_int sym) as [v'|]; [|discriminate].
    apply index_range in Hk as [Hk <-].
    constructor; [by apply symbol_at_elem|by apply (IH v')]. }
  split; [done|].
  destruct (symbols_to_int_valid sym Hs) as (v' & Hv' & Hr).
  rewrite Hv in Hv'. by injection Hv' as <-.
Qed.

Lemma symbols_to_int_Raise (sym : list N) (e : exn) :
  symbols_to_int sym = Raise e ->
  e = ValueError /\ Exists (fun c => c ∉ symbols) sym.
Proof.
  induction sym as [|c sym IH]; intros He; [discriminate|].
  rewrite symbols_to_int_cons in He.
  destruct (index symbols c) as [k|] eqn:Hk.
  - destruct (symbols_to_int sym) as [v|e'] eqn:Hv; [discriminate|].
    cbn [rmap] in He. injection He as <-.
    destruct (IH eq_refl) as [-> Hex]. split; [done|by right].
  - injection He as <-. split; [done|]. left. by apply index_None.
Qed.

Lemma symbols_to_int_Exists (sym : list N) :
  Exists (fun c => c ∉ symbols) sym -> symbols_to_int sym = Raise ValueError.
Proof.
  intros Hex. destruct (symbols_to_int sym) as [v|e] eqn:Hv.
  - apply symbols_to_int_Ok_inv in Hv as [Hs _].
    by apply (Exists_not_Forall (fun c => c ∈ symbols)) in Hex.
  - by apply symbols_to_int_Raise in Hv as [-> _].
Qed.

(** Two addresses have the same key exactly when they are congruent
    modulo 1024. *)
Lemma addr_eq_iff (x y : Z) :
  addr x = addr y <-> x mod 1024 = y mod 1024.
Proof.
  split.
  - intros H. apply (f_equal symbols_to_int) in H. unfold addr in H.
    rewrite !int_to_symbols_value in H. injection H as H.
    change max_short_line_size with 1024 in H. change (2 ^ linesize) with (2 ^ 20) in H.
    pose proof (Z.mod_pos_bound x 1024 eq_refl).
    pose proof (Z.mod_pos_bound y 1024 eq_refl).
    rewrite (Z.mod_small (x mod 1024) (2 ^ 20)) in H by lia.
    rewrite (Z.mod_small (y mod 1024) (2 ^ 20)) in H by lia. exact H.
  - intros H. unfold addr. change max_short_line_size with 1024. by rewrite H.
Qed.

Lemma addr_succ_ne (x : Z) : addr x <> addr (x + 1).
Proof.
  rewrite addr_eq_iff. intros H.
  assert (H1 : (x + 1 - x) mod 1024 = 0).
  { rewrite Zminus_mod, <- H, Z.sub_diag. reflexivity. }
  replace (x + 1 - x) with 1 in H1 by lia. discriminate.
Qed.

Lemma line_at_materialize (m : EStore.memory) (k : list N) (x : Z) :
  line_at (EStore.materialize k m) x = line_at m x.
Proof.
  unfold line_at, EStore.materialize. destruct (m !! k) eqn:E; [done|].
  destruct (decide (k = addr x)) as [->|Hne].
  - by rewrite lookup_insert_eq, E.
  - by rewrite lookup_insert_ne.
Qed.

Lemma materialize_total (m : EStore.memory) (x : Z) :
  EStore.materialize (addr x) m !!! addr x = line_at m x.
Proof.
  unfold line_at, EStore.materialize. destruct (m !! addr x) eqn:E.
  - by rewrite (lookup_total_correct _ _ _ E).
  - by rewrite lookup_total_insert_eq.
Qed.

Lemma read_lines_materialize (count : nat) :
  forall m k x, read_lines (EStore.materialize k m) x count = read_lines m x count.
Proof.
  induction count as [|count IH]; intros m k x; cbn [read_lines]; [done|].
  by rewrite line_at_materialize, IH.
Qed.

(** The loop of [get] in closed form. *)
Lemma get_loop_spec (count : nat) :
  forall loc_int i output m,
    EStore.get_loop loc_int i count output m
    = (Ok (output ++ read_lines m (loc_int + i) count),
       materialize_lines m (loc_int + i) count).
Proof.
  induction count as [|count IH]; intros loc_int i output m;
    cbn [EStore.get_loop read_lines materialize_lines].
  - by rewrite app_nil_r.
  - fold (addr (loc_int + i)). rewrite IH, materialize_total.
    rewrite read_lines_materialize, <- app_assoc.
    by replace (loc_int + (i + 1)) with (loc_int + i + 1) by lia.
Qed.

Lemma materialize_lines_keeps (count : nat) :
  forall m x k line,
    m !! k = Some line -> materialize_lines m x count !! k = Some line.
Proof.
  induction count as [|count IH]; intros m x k line H; cbn [materialize_lines].
  - done.
  - apply IH. by apply materialize_keeps.
Qed.

Lemma materialize_lines_fixed (count : nat) :
  forall m x,
    (forall j : nat, (j < count)%nat -> is_Some (m !! addr (x + Z.of_nat j))) ->
    materialize_lines m x count = m.
Proof.
  induction count as [|count IH]; intros m x H; cbn [materialize_lines]; [done|].
  destruct (H 0%nat ltac:(lia)) as [line Hline]. rewrite Z.add_0_r in Hline.
  rewrite (materialize_present _ _ _ Hline). apply IH. intros j Hj.
  replace (x + 1 + Z.of_nat j) with (x + Z.of_nat (S j)) by lia. apply H. lia.
Qed.

Lemma materialize_lines_present (count : nat) :
  forall m x (j : nat), (j < count)%nat ->
    is_Some (materialize_lines m x count !! addr (x + Z.of_nat j)).
Proof.
  induction count as [|count IH]; intros m x j Hj; [lia|].
  cbn [materialize_lines]. destruct j as [|j].
  - rewrite Z.add_0_r.
    destruct (materialize_lookup m (addr x)) as (line & Hline & _).
    exists line. by apply materialize_lines_keeps.
  - replace (x + Z.of_nat (S j)) with (x + 1 + Z.of_nat j) by lia.
    apply IH. lia.
Qed.

Lemma materialize_lines_idem (count : nat) (m : EStore.memory) (x : Z) :
  materialize_lines (materialize_lines m x count) x count
  = materialize_lines m x count.
Proof. apply materialize_lines_fixed. intros j Hj. by apply materialize_lines_present. Qed.

Lemma line_at_materialize_lines (count : nat) :
  forall m x y, line_at (materialize_lines m x count) y = line_at m y.
Proof.
  induction count as [|count IH]; intros m x y; cbn [materialize_lines]; [done|].
  by rewrite IH, line_at_materialize.
Qed.

Lemma read_lines_materialize_lines (count count' : nat) :
  forall m x y,
    read_lines (materialize_lines m x count) y count' = read_lines m y count'.
Proof.
  induction count' as [|count' IH]; intros m x y; cbn [read_lines]; [done|].
  by rewrite line_at_materialize_lines, IH.
Qed.

Lemma wf_store_materialize_lines (count : nat) :
  forall m x, wf_store m -> wf_store (materialize_lines m x count).
Proof.
  induction count as [|count IH]; intros m x Hm; cbn [materialize_lines]; [done|].
  apply IH. by apply wf_store_materialize.
Qed.

Lemma line_at_field (m : EStore.memory) (x : Z) :
  wf_store m -> is_field 4 (line_at m x).
Proof.
  intros Hm. unfold line_at. destruct (m !! addr x) as [line|] eqn:E; cbn [default].
  - by destruct (Hm _ _ E).
  - apply zero_line_field.
Qed.

Lemma read_lines_field (count : nat) :
  forall m x, wf_store m -> is_field (4 * count) (read_lines m x count).
Proof.
  induction count as [|count IH]; intros m x Hm; cbn [read_lines].
  - split; [done|constructor].
  - destruct (line_at_field m x Hm) as [Hl Hs]. destruct (IH m (x + 1) Hm) as [Hl' Hs'].
    split; [rewrite length_app; lia|by apply Forall_app].
Qed.

Lemma wrap_pieces_nil (fuel width : nat) : wrap_pieces fuel [] width = [].
Proof. by destruct fuel. Qed.

Lemma wrap_nil : wrap [] 4 = [].
Proof. reflexivity. Qed.

Lemma wrap_short (val : list N) :
  val <> [] -> (length val <= 4)%nat -> wrap val 4 = [val].
Proof.
  intros Hne Hlen. unfold wrap. change (Z.to_nat 4) with 4%nat.
  destruct val as [|c val]; [done|]. cbn [length wrap_pieces].
  rewrite take_ge by done. rewrite drop_ge by done.
  by rewrite wrap_pieces_nil.
Qed.

Lemma wrap_long (val : list N) :
  (4 < length val <= 8)%nat -> wrap val 4 = [take 4 val; drop 4 val].
Proof.
  intros Hlen. unfold wrap. change (Z.to_nat 4) with 4%nat.
  destruct val as [|c val]; [cbn [length] in Hlen; lia|].
  cbn [length wrap_pieces]. f_equal.
  assert (Hd : (0 < length (drop 4 (c :: val)) <= 4)%nat)
    by (rewrite length_drop; cbn [length] in Hlen |- *; lia).
  destruct (length val) as [|n] eqn:En; [cbn [length] in Hlen; lia|].
  cbn [wrap_pieces].
  destruct (drop 4 (c :: val)) as [|d rest] eqn:Ed; [cbn [length] in Hd; lia|].
  rewrite take_ge by lia. rewrite drop_ge by lia.
  by rewrite wrap_pieces_nil.
Qed.

Lemma ljust_full (s : list N) (width : Z) (fill : N) :
  width <= Z.of_nat (length s) -> ljust s width fill = s.
Proof.
  intros H. unfold ljust.
  replace (Z.to_nat (width - Z.of_nat (length s))) with 0%nat by lia.
  apply app_nil_r.
Qed.

Lemma set_loop_one (p : Z) (v : list N) (m : EStore.memory) :
  EStore.set_loop p 0 [v] m
  = (Ok tt, <[addr p := ljust v 4 (symbol_at 0)]> m).
Proof.
  cbn [EStore.set_loop]. unfold bind, EStore.store, ret.
  fold (addr (p + 0)). by rewrite Z.add_0_r.
Qed.

Lemma set_loop_two (p : Z) (v1 v2 : list N) (m : EStore.memory) :
  EStore.set_loop p 0 [v1; v2] m
  = (Ok tt, <[addr (p + 1) := ljust v2 4 (symbol_at 0)]>
              (<[addr p := ljust v1 4 (symbol_at 0)]> m)).
Proof.
  cbn [EStore.set_loop]. unfold bind, EStore.store, ret.
  fold (addr (p + 0)). fold (addr (p + (0 + 1))).
  by rewrite Z.add_0_r, Z.add_0_l.
Qed.

(** [set] of a value of at most one line, and of a longer value. *)
Lemma set_short (m : EStore.memory) (loc val : list N) (p : Z) :
  EStore.valid loc 2 = true -> EStore.valid val 8 = true ->
  symbols_to_int loc = Ok p -> val <> [] -> (length val <= 4)%nat ->
  EStore.set loc val m = (Ok tt, <[addr p := ljust val 4 (symbol_at 0)]> m).
Proof.
  intros Hl Hv Hp Hne Hlen.
  destruct (set_valid m loc val Hl Hv) as (p' & Hp' & ->).
  rewrite Hp in Hp'. injection Hp' as <-.
  rewrite wrap_short by done. apply set_loop_one.
Qed.

Lemma set_long (m : EStore.memory) (loc val : list N) (p : Z) :
  EStore.valid loc 2 = true -> EStore.valid val 8 = true ->
  symbols_to_int loc = Ok p -> (4 < length val)%nat ->
  EStore.set loc val m
  = (Ok tt, <[addr (p + 1) := ljust (drop 4 val) 4 (symbol_at 0)]>
              (<[addr p := take 4 val]> m)).
Proof.
  intros Hl Hv Hp Hlen.
  destruct (set_valid m loc val Hl Hv) as (p' & Hp' & ->).
  rewrite Hp in Hp'. injection Hp' as <-.
  apply valid_spec in Hv as [Hv8 _].
  rewrite wrap_long by lia. rewrite set_loop_two.
  rewrite (ljust_full (take 4 val)); [done|]. rewrite length_take. lia.
Qed.

Lemma set_empty (m : EStore.memory) (loc : list N) :
  EStore.valid loc 2 = true -> EStore.set loc [] m = (Ok tt, m).
Proof.
  intros Hl. by destruct (set_valid m loc [] Hl eq_refl) as (p' & Hp' & ->).
Qed.

(** [get_lines] in closed form, when its assertions hold. *)
Lemma get_lines_spec (loc : list N) (loc_int lines : Z) (m : EStore.memory) :
  EStore.valid loc 2 = true -> 1 <= lines ->
  EStore.get_lines loc loc_int lines m
  = (Ok (read_lines m loc_int (Z.to_nat lines)),
     materialize_lines m loc_int (Z.to_nat lines)).
Proof.
  intros Hl Hn. unfold EStore.get_lines, bind, assert.
  change (shortlinesize / symbolvalue) with 2. rewrite Hl.
  apply Z.leb_le in Hn. rewrite Hn. cbn [ret].
  rewrite get_loop_spec. by rewrite Z.add_0_r.
Qed.

Lemma get_lines_invalid (loc : list N) (loc_int lines : Z) (m : EStore.memory) :
  EStore.valid loc 2 = false \/ lines < 1 ->
  EStore.get_lines loc loc_int lines m = (Raise AssertionError, m).
Proof.
  intros H. unfold EStore.get_lines, bind, assert.
  change (shortlinesize / symbolvalue) with 2.
  destruct (EStore.valid loc 2); [|done].
  destruct H as [H|H]; [discriminate|].
  apply Z.leb_gt in H. by rewrite H.
Qed.

(** The value of a valid address string is below 1024. *)
Lemma valid_address (loc : list N) :
  EStore.valid loc 2 = true ->
  exists p, symbols_to_int loc = Ok p /\ 0 <= p < 1024.
Proof.
  intros Hl. apply valid_spec in Hl as [Hlen Hs].
  destruct (symbols_to_int_valid loc Hs) as (p & Hp & Hr).
  exists p. split; [done|]. split; [lia|].
  eapply Z.lt_le_trans; [exact (proj2 Hr)|].
  change 1024 with (32 ^ 2). apply Z.pow_le_mono_r; lia.
Qed.

(** ** Symbol codec, further *)

(** X1: on a string of at most 10 symbols (a value below 2^53)
    [symbols_to_int] raises exactly when the string has a character outside
    the alphabet, and then it is the [ValueError] of [symbols.index]; when
    it returns, the integer is in [0, 32^len). *)
Theorem symbols_to_int_outcome (sym : list N) :
  (length sym <= 10)%nat ->
  (symbols_to_int sym = Raise ValueError <-> Exists (fun c => c ∉ symbols) sym) /\
  (forall e, symbols_to_int sym = Raise e -> e = ValueError) /\
  (forall v, symbols_to_int sym = Ok v -> 0 <= v < 32 ^ Z.of_nat (length sym)).
Proof.
  intros _. split; [split|split].
  - intros H. by apply symbols_to_int_Raise in H as [_ H].
  - apply symbols_to_int_Exists.
  - intros e H. by apply symbols_to_int_Raise in H as [-> _].
  - intros v H. by apply symbols_to_int_Ok_inv in H as [_ H].
Qed.

Lemma symbols_to_int_outcome_witness :
  symbols_to_int (py "AB?") = Raise ValueError
  <-> Exists (fun c => c ∉ symbols) (py "AB?").
Proof.
  apply (symbols_to_int_outcome (py "AB?")). cbn. lia.
Defined.

(** X2: the value of a concatenation is the value of the first string plus
    [32^len] of it times the value of the second (the first symbol is the
    least significant), so padding a string with zero symbols on the right,
    as [ljust] does, leaves its value unchanged. *)
Theorem symbols_to_int_concat (a b : list N) (va vb width : Z) :
  (length a + length b <= 10)%nat -> width <= 10 ->
  symbols_to_int a = Ok va -> symbols_to_int b = Ok vb ->
  symbols_to_int (a ++ b) = Ok (va + 32 ^ Z.of_nat (length a) * vb) /\
  symbols_to_int (ljust a width (symbol_at 0)) = Ok va.
Proof.
  intros _ _ Ha Hb. split; [by apply symbols_to_int_app|].
  unfold ljust.
  rewrite (symbols_to_int_app _ _ _ _ Ha (symbols_to_int_replicate _)).
  f_equal. lia.
Qed.

Lemma symbols_to_int_concat_witness :
  symbols_to_int (py "E/" ++ py "@") = Ok (1 + 32 ^ Z.of_nat (length (py "E/")) * 2) /\
  symbols_to_int (ljust (py "E/") 8 (symbol_at 0)) = Ok 1.
Proof.
  apply (symbols_to_int_concat (py "E/") (py "@") 1 2 8);
    try reflexivity; cbn; lia.
Defined.

(** X3: at a given size two integers of magnitude at most 2^53 have the
    same encoding exactly when they are congruent modulo 2^20; in
    particular a negative integer is encoded as its non-negative
    residue. *)
Theorem int_to_symbols_eq_iff (n n' size : Z) :
  - 2 ^ 53 <= n <= 2 ^ 53 -> - 2 ^ 53 <= n' <= 2 ^ 53 ->
  int_to_symbols n size = int_to_symbols n' size
  <-> n mod 2 ^ 20 = n' mod 2 ^ 20.
Proof.
  intros _ _. split.
  - intros H. apply (f_equal symbols_to_int) in H.
    rewrite !int_to_symbols_value in H. by injection H.
  - intros H. unfold int_to_symbols. change (2 ^ linesize) with (2 ^ 20).
    by rewrite H.
Qed.

Lemma int_to_symbols_eq_iff_witness :
  int_to_symbols (-1) 4 = int_to_symbols (2 ^ 20 - 1) 4.
Proof.
  apply (int_to_symbols_eq_iff (-1) (2 ^ 20 - 1) 4); [lia|lia|reflexivity].
Defined.

(** ** Electronic store, further *)

(** X4: [valid] accepts a string exactly when it is no longer than the
    given length and all its characters are in the alphabet; with a
    negative length it rejects every string, the empty one included. *)
Theorem valid_iff (val : list N) (len : Z) :
  (EStore.valid val len = true
   <-> Z.of_nat (length val) <= len /\ Forall (fun c => c ∈ symbols) val) /\
  (len < 0 -> EStore.valid val len = false) /\
  (0 <= len -> EStore.valid [] len = true).
Proof.
  split; [apply valid_spec|split].
  - intros Hlen. apply not_true_iff_false. rewrite valid_spec. lia.
  - intros Hlen. apply valid_spec. cbn [length]. split; [lia|constructor].
Qed.

(** X5: what a successful [set] writes.  An empty value writes nothing; a
    value of 1 to 4 symbols is written, right-padded with zero symbols to a
    line, at the address; of a value of 5 to 8 symbols the first four go to
    the address and the rest, padded to a line, to the next address modulo
    1024.  No other key changes. *)
Theorem set_effect (m : EStore.memory) (loc val : list N) (p : Z) :
  EStore.valid loc 2 = true -> EStore.valid val 8 = true ->
  symbols_to_int loc = Ok p ->
  EStore.set loc val m
  = (Ok tt,
     if decide (val = []) then m
     else if decide (length val <= 4)%nat
          then <[addr p := ljust val 4 (symbol_at 0)]> m
          else <[addr (p + 1) := ljust (drop 4 val) 4 (symbol_at 0)]>
                 (<[addr p := take 4 val]> m)).
Proof.
  intros Hl Hv Hp.
  destruct (decide (val = [])) as [->|Hne]; [by apply set_empty|].
  destruct (decide (length val <= 4)%nat) as [Hlen|Hlen].
  - by apply set_short.
  - apply set_long; [done..|lia].
Qed.

Lemma set_effect_witness :
  EStore.set (py "E") (py "ABCDE") ∅
  = (Ok tt, <[py "@/" := py "E///"]> (<[py "E/" := py "ABCD"]> ∅)).
Proof.
  exact (set_effect ∅ (py "E") (py "ABCDE") 1 eq_refl eq_refl eq_refl).
Defined.

(** X6: addresses wrap around.  A value of more than one line set at the
    last address, 1023, has its first line at address 1023 and its second
    line at address 0; every other line of the store is left as it was. *)
Theorem set_wraps_around (m : EStore.memory) (val : list N) :
  EStore.valid val 8 = true -> (4 < length val)%nat ->
  exists m',
    EStore.set [163%N; 163%N] val m = (Ok tt, m') /\
    m' !! [163%N; 163%N] = Some (take 4 val) /\
    m' !! py "//" = Some (ljust (drop 4 val) 4 (symbol_at 0)) /\
    (forall k, k <> [163%N; 163%N] -> k <> py "//" -> m' !! k = m !! k).
Proof.
  intros Hv Hlen. eexists. split.
  - apply (set_long m [163%N; 163%N] val 1023); [reflexivity|done|reflexivity|done].
  - change (addr (1023 + 1)) with (py "//"). change (addr 1023) with [163%N; 163%N].
    split; [|split].
    + rewrite lookup_insert_ne by discriminate. apply lookup_insert_eq.
    + apply lookup_insert_eq.
    + intros k H1 H2. by rewrite !lookup_insert_ne.
Qed.

Lemma set_wraps_around_witness :
  exists m',
    EStore.set [163%N; 163%N] (py "ABCDEF") ∅ = (Ok tt, m') /\
    m' !! [163%N; 163%N] = Some (py "ABCD") /\
    m' !! py "//" = Some (py "EF//").
Proof.
  destruct (set_wraps_around ∅ (py "ABCDEF") eq_refl) as (m' & H & H1 & H2 & _).
  { cbn [length py map list_ascii_of_string]. lia. }
  exists m'. split; [exact H|]. split; [exact H1|exact H2].
Defined.

Lemma ljust_split (val : list N) (fill : N) :
  (4 < length val)%nat ->
  take 4 val ++ ljust (drop 4 val) 4 fill = ljust val 8 fill.
Proof.
  intros Hlen. unfold ljust. rewrite app_assoc, take_drop, length_drop.
  do 2 f_equal. lia.
Qed.

Lemma line_at_insert (m : EStore.memory) (x : Z) (line : list N) :
  line_at (<[addr x := line]> m) x = line.
Proof. unfold line_at. by rewrite lookup_insert_eq. Qed.

Lemma line_at_insert_ne (m : EStore.memory) (x y : Z) (line : list N) :
  addr x <> addr y -> line_at (<[addr x := line]> m) y = line_at m y.
Proof. intros H. unfold line_at. by rewrite lookup_insert_ne. Qed.

Lemma get_str_spec (m : EStore.memory) (loc : list N) (p lines : Z) :
  EStore.valid loc 2 = true -> symbols_to_int loc = Ok p -> 1 <= lines ->
  EStore.get (PStr loc) lines m
  = (Ok (PStr (read_lines m p (Z.to_nat lines))),
     materialize_lines m p (Z.to_nat lines)).
Proof.
  intros Hl Hp Hn. cbn [EStore.get]. unfold EStore.get_str.
  unfold bind at 1. unfold bind at 1. unfold lift at 1. rewrite Hp.
  by rewrite get_lines_spec.
Qed.

Lemma get_int_spec (m : EStore.memory) (n lines v : Z) :
  EStore.valid (int_to_symbols n 2) 2 = true -> 1 <= lines ->
  symbols_to_int (read_lines m n (Z.to_nat lines)) = Ok v ->
  EStore.get (PNum n) lines m
  = (Ok (PNum v), materialize_lines m n (Z.to_nat lines)).
Proof.
  intros Hl Hn Hv. cbn [EStore.get]. unfold EStore.get_int.
  change (shortlinesize / symbolvalue) with 2.
  unfold bind at 1. unfold bind at 1.
  rewrite get_lines_spec by done. unfold lift. by rewrite Hv.
Qed.

(** X7: a value that was set is read back.  After a successful [set] of a
    non-empty value, [get] at the same address, of one line for a value of
    up to 4 symbols and of two lines for a longer one, returns the value
    right-padded with zero symbols to whole lines, and at the numeric
    address it returns the integer value of the value; neither read
    changes the store. *)
Theorem set_then_get (m : EStore.memory) (loc val : list N) (p v : Z) :
  EStore.valid loc 2 = true -> EStore.valid val 8 = true ->
  symbols_to_int loc = Ok p -> symbols_to_int val = Ok v -> val <> [] ->
  let m' := snd (EStore.set loc val m) in
  let lines := if decide (length val <= 4)%nat then 1 else 2 in
  EStore.get (PStr loc) lines m'
  = (Ok (PStr (ljust val (4 * lines) (symbol_at 0))), m') /\
  EStore.get (PNum p) lines m' = (Ok (PNum v), m').
Proof.
  intros Hl Hv Hp Hval Hne m' lines.
  destruct (valid_address loc Hl) as (p' & Hp' & Hr).
  rewrite Hp in Hp'. injection Hp' as <-.
  assert (Hnum : EStore.valid (int_to_symbols p 2) 2 = true).
  { change 2 with (shortlinesize / symbolvalue) at 1. rewrite addr_small by done.
    apply (valid_field 2), addr_field. }
  assert (Hpad : forall w, symbols_to_int (ljust val w (symbol_at 0)) = Ok v).
  { intros w. unfold ljust.
    rewrite (symbols_to_int_app _ _ _ _ Hval (symbols_to_int_replicate _)).
    f_equal. lia. }
  subst m' lines. destruct (decide (length val <= 4)%nat) as [Hlen|Hlen].
  - rewrite (set_short m loc val p) by done. cbn [snd].
    set (m' := <[addr p := ljust val 4 (symbol_at 0)]> m).
    assert (Hm' : materialize_lines m' p (Z.to_nat 1) = m').
    { apply materialize_lines_fixed. intros j Hj.
      replace j with 0%nat by lia. rewrite Z.add_0_r.
      exists (ljust val 4 (symbol_at 0)). apply lookup_insert_eq. }
    assert (Hread : read_lines m' p (Z.to_nat 1) = ljust val 4 (symbol_at 0)).
    { change (Z.to_nat 1) with 1%nat. cbn [read_lines].
      unfold m'. by rewrite line_at_insert, app_nil_r. }
    split.
    + rewrite (get_str_spec m' loc p 1) by (done || lia). by rewrite Hm', Hread.
    + rewrite (get_int_spec m' p 1 v); [by rewrite Hm'|done|lia|].
      rewrite Hread. apply Hpad.
  - rewrite (set_long m loc val p) by (done || lia). cbn [snd].
    set (m' := <[addr (p + 1) := ljust (drop 4 val) 4 (symbol_at 0)]>
                 (<[addr p := take 4 val]> m)).
    assert (Hm' : materialize_lines m' p (Z.to_nat 2) = m').
    { apply materialize_lines_fixed. intros j Hj.
      destruct j as [|[|j]]; [| |lia]; unfold m'.
      - rewrite Z.add_0_r. exists (take 4 val).
        rewrite lookup_insert_ne by (apply not_eq_sym, addr_succ_ne).
        apply lookup_insert_eq.
      - eexists. apply lookup_insert_eq. }
    assert (Hread : read_lines m' p (Z.to_nat 2) = ljust val 8 (symbol_at 0)).
    { change (Z.to_nat 2) with 2%nat. cbn [read_lines]. unfold m'.
      rewrite line_at_insert. rewrite line_at_insert_ne
        by (apply not_eq_sym, addr_succ_ne).
      rewrite line_at_insert, app_nil_r. apply ljust_split. lia. }
    split.
    + rewrite (get_str_spec m' loc p 2) by (done || lia). by rewrite Hm', Hread.
    + rewrite (get_int_spec m' p 2 v); [by rewrite Hm'|done|lia|].
      rewrite Hread. apply Hpad.
Qed.

Lemma set_then_get_witness :
  let m' := snd (EStore.set (py "E") (py "ABCDE") ∅) in
  EStore.get (PStr (py "E")) 2 m' = (Ok (PStr (py "ABCDE///")), m') /\
  EStore.get (PNum 1) 2 m' = (Ok (PNum 1358627), m').
Proof.
  apply (set_then_get ∅ (py "E") (py "ABCDE") 1 1358627); try reflexivity.
  discriminate.
Defined.

(** X8: reads wrap around too.  Two lines read at address 1023 are the
    line of address 1023 followed by the line of address 0, each the zero
    line if the store does not hold it. *)
Theorem get_wraps_around (m : EStore.memory) :
  EStore.get (PStr [163%N; 163%N]) 2 m
  = (Ok (PStr (default (py "////") (m !! [163%N; 163%N])
               ++ default (py "////") (m !! py "//"))),
     EStore.materialize (py "//") (EStore.materialize [163%N; 163%N] m)).
Proof.
  rewrite (get_str_spec m [163%N; 163%N] 1023 2); [|reflexivity|reflexivity|lia].
  change (Z.to_nat 2) with 2%nat. cbn [read_lines materialize_lines].
  unfold line_at. change (addr (1023 + 1)) with (py "//").
  change (addr 1023) with [163%N; 163%N]. by rewrite app_nil_r.
Qed.

(** The symbols of a numeric address pass the check of [get] exactly when
    the residue of the address modulo 2^20 is below 1024. *)
Lemma valid_numeric_address (n : Z) :
  EStore.valid (int_to_symbols n 2) 2 = true <-> n mod 2 ^ 20 < 1024.
Proof.
  rewrite valid_spec.
  destruct (int_to_symbols_width n 2) as (k & Hk & Hmin & _ & _ & Hlen).
  change (2 ^ linesize) with (2 ^ 20) in Hk, Hmin.
  split.
  - intros [Hl _]. rewrite Hlen in Hl.
    eapply Z.lt_le_trans; [exact Hk|].
    change 1024 with (32 ^ 2). apply Z.pow_le_mono_r; lia.
  - intros Hn. split; [|apply int_to_symbols_elem].
    specialize (Hmin 2%nat Hn). lia.
Qed.

(** X9: how [get] at a string address ends.  A character outside the
    alphabet gives a [ValueError] (the address is decoded before it is
    checked); an address over the alphabet that is longer than 2 symbols,
    or a number of lines below 1, gives an [AssertionError]; in both cases
    the store is untouched.  Otherwise [get] returns. *)
Theorem get_str_outcome (m : EStore.memory) (loc : list N) (lines : Z) :
  (length loc <= 10)%nat ->
  (Exists (fun c => c ∉ symbols) loc ->
   EStore.get (PStr loc) lines m = (Raise ValueError, m)) /\
  (Forall (fun c => c ∈ symbols) loc -> (2 < length loc)%nat \/ lines < 1 ->
   EStore.get (PStr loc) lines m = (Raise AssertionError, m)) /\
  (Forall (fun c => c ∈ symbols) loc -> (length loc <= 2)%nat -> 1 <= lines ->
   exists out m', EStore.get (PStr loc) lines m = (Ok (PStr out), m')).
Proof.
  intros _. split; [|split].
  - intros Hex. cbn [EStore.get]. unfold EStore.get_str, bind, lift.
    by rewrite (symbols_to_int_Exists loc Hex).
  - intros Hs Hbad. cbn [EStore.get]. unfold EStore.get_str.
    destruct (symbols_to_int_valid loc Hs) as (p & Hp & _).
    unfold bind at 1. unfold bind at 1. unfold lift at 1. rewrite Hp.
    rewrite get_lines_invalid; [done|].
    destruct Hbad as [Hlen|Hlines]; [left|by right].
    apply not_true_iff_false. rewrite valid_spec. lia.
  - intros Hs Hlen Hlines.
    destruct (symbols_to_int_valid loc Hs) as (p & Hp & _).
    eexists _, _. apply (get_str_spec m loc p lines); [|done|done].
    apply valid_spec. split; [lia|done].
Qed.

Lemma get_str_outcome_witness :
  EStore.get (PStr (py "A?")) 1 ∅ = (Raise ValueError, ∅) /\
  EStore.get (PStr (py "ABC")) 1 ∅ = (Raise AssertionError, ∅) /\
  EStore.get (PStr (py "AB")) 0 ∅ = (Raise AssertionError, ∅).
Proof.
  split; [|split].
  - apply (get_str_outcome ∅ (py "A?") 1); [cbn; lia|].
    right. left. vm_compute. intros H.
    apply list_elem_of_In in H. cbn [In] in H.
    repeat (destruct H as [H|H]; [discriminate H|]). exact H.
  - apply (get_str_outcome ∅ (py "ABC") 1); [cbn; lia| |left; cbn; lia].
    by apply (valid_Forall _ 3).
  - apply (get_str_outcome ∅ (py "AB") 0); [cbn; lia| |right; lia].
    by apply (valid_Forall _ 2).
Defined.

(** X10: how [get] at a numeric address ends.  An address whose residue
    modulo 2^20 is 1024 or more (its symbols are then more than 2), or a
    number of lines below 1, gives an [AssertionError] and the store is
    untouched; otherwise, for one or two lines on a well-formed store,
    [get] returns an integer.  The address is an integer of magnitude
    below 2^53. *)
Theorem get_num_outcome (m : EStore.memory) (n lines : Z) :
  - 2 ^ 53 <= n <= 2 ^ 53 - 2 ->
  (1024 <= n mod 2 ^ 20 \/ lines < 1 ->
   EStore.get (PNum n) lines m = (Raise AssertionError, m)) /\
  (n mod 2 ^ 20 < 1024 -> 1 <= lines <= 2 -> wf_store m ->
   exists v m', EStore.get (PNum n) lines m = (Ok (PNum v), m') /\
                0 <= v < 32 ^ (4 * lines)).
Proof.
  intros _. split.
  - intros Hbad. cbn [EStore.get]. unfold EStore.get_int.
    change (shortlinesize / symbolvalue) with 2.
    unfold bind at 1. unfold bind at 1.
    rewrite get_lines_invalid; [done|].
    destruct Hbad as [Hn|Hlines]; [left|by right].
    apply not_true_iff_false. rewrite valid_numeric_address. lia.
  - intros Hn [Hlines _] Hm.
    destruct (read_lines_field (Z.to_nat lines) m n Hm) as [Hlen Hs].
    destruct (symbols_to_int_valid _ Hs) as (v & Hv & Hr).
    exists v, (materialize_lines m n (Z.to_nat lines)). split.
    + apply get_int_spec; [by apply valid_numeric_address|done|done].
    + rewrite Hlen in Hr. by replace (Z.of_nat (4 * Z.to_nat lines)) with (4 * lines) in Hr by lia.
Qed.

Lemma get_num_outcome_witness :
  EStore.get (PNum 1024) 1 ∅ = (Raise AssertionError, ∅) /\
  exists v m', EStore.get (PNum (2 ^ 20 + 5)) 2 ∅ = (Ok (PNum v), m') /\
               0 <= v < 32 ^ (4 * 2).
Proof.
  split.
  - apply (get_num_outcome ∅ 1024 1); [lia|]. left. vm_compute. discriminate.
  - apply (get_num_outcome ∅ (2 ^ 20 + 5) 2); [lia| |lia|apply wf_store_empty].
    vm_compute. reflexivity.
Defined.

Lemma get_Ok_inv (m m' : EStore.memory) (loc v : pyval) (lines : Z) :
  EStore.get loc lines m = (Ok v, m') ->
  exists x : Z,
    1 <= lines /\ m' = materialize_lines m x (Z.to_nat lines) /\
    match loc with
    | PStr s => EStore.valid s 2 = true /\ symbols_to_int s = Ok x /\
                v = PStr (read_lines m x (Z.to_nat lines))
    | PNum n => EStore.valid (int_to_symbols n 2) 2 = true /\ x = n /\
                exists z, symbols_to_int (read_lines m x (Z.to_nat lines)) = Ok z /\
                          v = PNum z
    end.
Proof.
  intros H. destruct loc as [s|n]; cbn [EStore.get] in H.
  - unfold EStore.get_str in H. unfold bind at 1 in H. unfold bind at 1 in H.
    unfold lift at 1 in H.
    destruct (symbols_to_int s) as [x|e] eqn:Hx; [|discriminate].
    destruct (EStore.valid s 2) eqn:Hval;
      [|rewrite get_lines_invalid in H by (by left); discriminate].
    destruct (decide (1 <= lines)) as [Hl|Hl];
      [|rewrite get_lines_invalid in H by (right; lia); discriminate].
    rewrite get_lines_spec in H by done. injection H as <- <-.
    exists x. by repeat split.
  - unfold EStore.get_int in H. change (shortlinesize / symbolvalue) with 2 in H.
    unfold bind at 1 in H. unfold bind at 1 in H.
    destruct (EStore.valid (int_to_symbols n 2) 2) eqn:Hval;
      [|rewrite get_lines_invalid in H by (by left); discriminate].
    destruct (decide (1 <= lines)) as [Hl|Hl];
      [|rewrite get_lines_invalid in H by (right; lia); discriminate].
    rewrite get_lines_spec in H by done. unfold lift in H.
    destruct (symbols_to_int (read_lines m n (Z.to_nat lines))) as [z|e] eqn:Hz;
      [|discriminate].
    injection H as <- <-. exists n. repeat split; try done. by exists z.
Qed.

(** X11: [get] never overwrites and is idempotent.  When a call of [get]
    returns, every line the store held before is still there unchanged (the
    call only adds zero lines for the addresses it read), and the same call
    repeated returns the same result and leaves the store as the first
    call left it. *)
Theorem get_idempotent (m m' : EStore.memory) (loc v : pyval) (lines : Z) :
  match loc with
  | PStr _ => True
  | PNum n => - 2 ^ 53 <= n <= 2 ^ 53 - 2 /\ lines <= 2
  end ->
  EStore.get loc lines m = (Ok v, m') ->
  EStore.get loc lines m' = (Ok v, m') /\
  (forall k line, m !! k = Some line -> m' !! k = Some line) /\
  (forall k line, m' !! k = Some line ->
                  m !! k = Some line \/ (m !! k = None /\ line = py "////")).
Proof.
  intros _ H. destruct (get_Ok_inv _ _ _ _ _ H) as (x & Hl & -> & Hloc).
  split; [|split].
  - destruct loc as [s|n].
    + destruct Hloc as (Hval & Hx & ->).
      rewrite (get_str_spec _ s x lines) by done.
      by rewrite read_lines_materialize_lines, materialize_lines_idem.
    + destruct Hloc as (Hval & -> & z & Hz & ->).
      rewrite (get_int_spec _ n lines z); [|done|done|].
      * by rewrite materialize_lines_idem.
      * by rewrite read_lines_materialize_lines.
  - intros k line Hk. by apply materialize_lines_keeps.
  - clear. generalize (Z.to_nat lines). intros count. revert m x.
    induction count as [|count IH]; intros m x k line Hk; cbn [materialize_lines] in Hk.
    + by left.
    + apply IH in Hk. unfold EStore.materialize in Hk.
      destruct (m !! addr x) eqn:E; [done|].
      destruct (decide (addr x = k)) as [<-|Hne].
      * rewrite lookup_insert_eq in Hk. right. split; [done|].
        destruct Hk as [[= <-]|[[=] _]]. done.
      * by rewrite lookup_insert_ne in Hk.
Qed.

Lemma get_idempotent_witness :
  EStore.get (PNum 1023) 2 (<[py "//" := py "E///"]> ∅)
  = (Ok (PNum 1048576),
     <[[163%N; 163%N] := py "////"]> (<[py "//" := py "E///"]> ∅)) /\
  EStore.get (PNum 1023) 2
    (<[[163%N; 163%N] := py "////"]> (<[py "//" := py "E///"]> ∅))
  = (Ok (PNum 1048576),
     <[[163%N; 163%N] := py "////"]> (<[py "//" := py "E///"]> ∅)).
Proof.
  assert (H : EStore.get (PNum 1023) 2 (<[py "//" := py "E///"]> ∅)
              = (Ok (PNum 1048576),
                 <[[163%N; 163%N] := py "////"]> (<[py "//" := py "E///"]> ∅)))
    by (vm_compute; reflexivity).
  split; [exact H|].
  assert (Hn : - 2 ^ 53 <= 1023 <= 2 ^ 53 - 2 /\ 2 <= 2) by lia.
  exact (proj1 (get_idempotent _ _ (PNum 1023) _ 2 Hn H)).
Defined.

(** X12: on a well-formed store a string read of [lines] lines returns
    exactly [4 * lines] symbols of the alphabet, and the store is still
    well formed. *)
Theorem get_str_shape (m m' : EStore.memory) (loc out : list N) (lines : Z) :
  wf_store m ->
  EStore.get (PStr loc) lines m = (Ok (PStr out), m') ->
  Z.of_nat (length out) = 4 * lines /\
  Forall (fun c => c ∈ symbols) out /\ wf_store m'.
Proof.
  intros Hm H.
  destruct (get_Ok_inv _ _ _ _ _ H) as (x & Hl & -> & _ & _ & [= ->]).
  destruct (read_lines_field (Z.to_nat lines) m x Hm) as [Hlen Hs].
  split; [lia|]. split; [done|]. by apply wf_store_materialize_lines.
Qed.

Lemma get_str_shape_witness :
  Z.of_nat (length (py "////E///")) = 4 * 2 /\
  Forall (fun c => c ∈ symbols) (py "////E///") /\
  wf_store (<[[163%N; 163%N] := py "////"]> (<[py "//" := py "E///"]> ∅)).
Proof.
  apply (get_str_shape (<[py "//" := py "E///"]> ∅) _ [163%N; 163%N] _ 2).
  - apply wf_store_insert; [apply wf_store_empty|apply (addr_field 0)|].
    split; [reflexivity|]. by apply (valid_Forall _ 4).
  - vm_compute. reflexivity.
Defined.

(** X13: [dump] has one line per key of the memory, and its lines are
    exactly the strings made of a key, a space and the line stored under
    the key; on a well-formed store each of them has 7 characters. *)
Theorem dump_lines (m : EStore.memory) :
  length (EStore.dump m) = size m /\
  (forall x, x ∈ EStore.dump m
             <-> exists k v, m !! k = Some v /\ x = k ++ py " " ++ v) /\
  (wf_store m -> Forall (fun x => length x = 7%nat) (EStore.dump m)).
Proof.
  unfold EStore.dump. split; [|split].
  - by rewrite length_map, length_map_to_list.
  - intros x. rewrite list_elem_of_In, in_map_iff. split.
    + intros ([k v] & <- & Hin). exists k, v. split; [|done].
      by apply elem_of_map_to_list, list_elem_of_In.
    + intros (k & v & Hk & ->). exists (k, v). split; [done|].
      by apply list_elem_of_In, elem_of_map_to_list.
  - intros Hm. apply Forall_forall. intros x Hx.
    apply list_elem_of_In, in_map_iff in Hx as ([k v] & <- & Hin).
    apply list_elem_of_In, elem_of_map_to_list in Hin.
    destruct (Hm k v Hin) as [[Hk _] [Hv _]]. cbn [fst snd].
    rewrite !length_app, Hk, Hv. reflexivity.
Qed.

Lemma set_valid_pair (m : EStore.memory) (p : list N * list N) :
  valid_pair p -> exists m', EStore.set (fst p) (snd p) m = (Ok tt, m').
Proof.
  intros [Hl Hv]. destruct (set_valid m _ _ Hl Hv) as (x & _ & ->).
  apply set_loop_Ok.
Qed.

Lemma set_invalid_pair (m : EStore.memory) (p : list N * list N) :
  ~ valid_pair p -> EStore.set (fst p) (snd p) m = (Raise AssertionError, m).
Proof.
  intros H. apply set_invalid. apply not_true_iff_false. intros Hb.
  apply andb_true_iff in Hb. by apply H.
Qed.

Lemma load_cons (m : EStore.memory) (p : list N * list N)
      (pairs : list (list N * list N)) :
  EStore.load (p :: pairs) m
  = match EStore.set (fst p) (snd p) m with
    | (Ok _, m') => EStore.load pairs m'
    | (Raise e, m') => (Raise e, m')
    end.
Proof. destruct p as [a v]. reflexivity. Qed.

Lemma load_wf (pairs : list (list N * list N)) :
  forall m, wf_store m -> wf_store (snd (EStore.load pairs m)).
Proof.
  induction pairs as [|p pairs IH]; intros m Hm; [done|].
  rewrite load_cons. pose proof (set_wf m (fst p) (snd p) Hm) as Hset.
  destruct (EStore.set (fst p) (snd p) m) as [[[]|e] m']; [by apply IH|done].
Qed.

(** X14: [load] sets the pairs in order.  When every pair has an address
    and a value that [set] accepts it returns, and the store is the one the
    successive [set]s of all the pairs leave.  It is not atomic: at the
    first pair that [set] refuses it raises the [AssertionError] of [set],
    and the store is the one the [set]s of the pairs before it leave, the
    pairs after it never being looked at.  In particular a value of 1 to 4
    symbols set by the last pair before the failure (or the last pair of
    all) is in the store, padded to a line, at its address.  The store
    [load] leaves is well formed if the one it started from was. *)
Theorem load_outcome (pairs : list (list N * list N)) (m : EStore.memory) :
  (Forall valid_pair pairs ->
   EStore.load pairs m = (Ok tt, fold_left set_pair pairs m)) /\
  (forall good bad rest,
     pairs = good ++ bad :: rest -> Forall valid_pair good -> ~ valid_pair bad ->
     EStore.load pairs m = (Raise AssertionError, fold_left set_pair good m)) /\
  (forall before a v p,
     valid_pair (a, v) -> symbols_to_int a = Ok p ->
     v <> [] -> (length v <= 4)%nat ->
     fold_left set_pair (before ++ [(a, v)]) m !! addr p
     = Some (ljust v 4 (symbol_at 0))) /\
  (wf_store m -> wf_store (snd (EStore.load pairs m))).
Proof.
  split; [|split; [|split]].
  - revert m. induction pairs as [|p pairs IH]; intros m Hall; [done|].
    apply Forall_cons in Hall as [Hp Hall]. rewrite load_cons.
    cbn [fold_left]. unfold set_pair at 2.
    destruct (set_valid_pair m p Hp) as [m' ->]. by apply IH.
  - intros good bad rest -> Hgood Hbad. revert m.
    induction good as [|p good IH]; intros m.
    + cbn [app]. rewrite load_cons. by rewrite set_invalid_pair.
    + apply Forall_cons in Hgood as [Hp Hgood].
      cbn [app fold_left]. rewrite !load_cons. unfold set_pair at 2.
      destruct (set_valid_pair m p Hp) as [m' ->]. by apply IH.
  - intros before a v p [Ha Hv] Hp Hne Hlen.
    rewrite fold_left_app. cbn [fold_left]. unfold set_pair at 1.
    cbn [fst snd] in Ha, Hv |- *.
    rewrite (set_short _ a v p Ha Hv Hp Hne Hlen). apply lookup_insert_eq.
  - apply load_wf.
Qed.

Lemma load_outcome_witness :
  EStore.load [(py "E", py "AB"); (py "ABC", py "A"); (py "@", py "C")] ∅
  = (Raise AssertionError, <[py "E/" := py "AB//"]> ∅).
Proof.
  apply (proj1 (proj2 (load_outcome
                         [(py "E", py "AB"); (py "ABC", py "A"); (py "@", py "C")] ∅))
               [(py "E", py "AB")] (py "ABC", py "A") [(py "@", py "C")] eq_refl).
  - constructor; [split; reflexivity|constructor].
  - intros [H _]. discriminate H.
Defined.

(** ** The machine, further *)

Lemma get_int_eq (m : EStore.memory) (n lines v : Z) :
  EStore.valid (int_to_symbols n 2) 2 = true -> 1 <= lines ->
  symbols_to_int (read_lines m n (Z.to_nat lines)) = Ok v ->
  EStore.get_int n lines m = (Ok v, materialize_lines m n (Z.to_nat lines)).
Proof.
  intros Hl Hn Hv. unfold EStore.get_int.
  change (shortlinesize / symbolvalue) with 2. unfold bind.
  rewrite get_lines_spec by done. unfold lift. by rewrite Hv.
Qed.

Lemma operand_range (st : State.t) : 0 <= operand_of st < 1024.
Proof. apply mod_short_range. Qed.

Lemma valid_small_address (a : Z) :
  0 <= a < 1024 -> EStore.valid (int_to_symbols a 2) 2 = true.
Proof.
  intros Ha. apply valid_numeric_address. rewrite Z.mod_small; lia.
Qed.

(** [applyInstruction] up to its case split, with the operands it reads:
    the value of the line at the operand address and the value of that
    line followed by the next one. *)
Lemma applyInstruction_operands (st : State.t) :
  wf_store (State.e_store st) ->
  let a := operand_of st in
  let m := State.e_store st in
  let instr := int_to_symbols (State.S st) 4 in
  exists s_data s_pair_data,
    symbols_to_int (line_at m a) = Ok s_data /\
    symbols_to_int (line_at m a ++ line_at m (a + 1)) = Ok s_pair_data /\
    0 <= s_data < 2 ^ 20 /\ 0 <= s_pair_data < 2 ^ 40 /\
    ReducedMachine.applyInstruction st
    = ReducedMachine.case_split st instr (take 2 instr) (drop 2 instr)
        s_data s_pair_data (int_to_symbols (State.A st) 8)
        (with_store st (operands_read a m)).
Proof.
  intros Hm a m instr. pose proof (operand_range st) as Ha. fold a in Ha.
  destruct (line_at_field m a Hm) as [Hlen1 Hs1].
  destruct (line_at_field m (a + 1) Hm) as [Hlen2 Hs2].
  destruct (symbols_to_int_valid _ Hs1) as (v1 & Hv1 & Hr1).
  destruct (symbols_to_int_valid _ Hs2) as (v2 & Hv2 & Hr2).
  rewrite Hlen1 in Hr1. rewrite Hlen2 in Hr2.
  change (32 ^ Z.of_nat 4) with (2 ^ 20) in Hr1, Hr2.
  exists v1, (v1 + 32 ^ Z.of_nat (length (line_at m a)) * v2).
  rewrite (symbols_to_int_app _ _ _ _ Hv1 Hv2). rewrite Hlen1.
  change (32 ^ Z.of_nat 4) with (2 ^ 20).
  split; [done|]. split; [done|]. split; [done|].
  split; [change (2 ^ 40) with (2 ^ 20 * 2 ^ 20); nia|].
  assert (Hg1 : EStore.get_int a 1 m
                = (Ok v1, EStore.materialize (addr a) m)).
  { rewrite (get_int_eq m a 1 v1); [done|by apply valid_small_address|lia|].
    change (Z.to_nat 1) with 1%nat. cbn [read_lines]. by rewrite app_nil_r. }
  assert (Hg2 : EStore.get_int a 2 (EStore.materialize (addr a) m)
                = (Ok (v1 + 2 ^ 20 * v2), operands_read a m)).
  { rewrite (get_int_eq _ a 2 (v1 + 2 ^ 20 * v2));
      [|by apply valid_small_address|lia|].
    - change (Z.to_nat 2) with 2%nat. cbn [materialize_lines].
      unfold operands_read. by rewrite materialize_idem.
    - change (Z.to_nat 2) with 2%nat. cbn [read_lines].
      rewrite !line_at_materialize, app_nil_r.
      rewrite (symbols_to_int_app _ _ _ _ Hv1 Hv2), Hlen1. reflexivity. }
  unfold ReducedMachine.applyInstruction.
  unfold bind at 1. unfold ReducedMachine.read at 1. cbv beta iota zeta.
  fold (operand_of st). fold a.
  erewrite bind_Ok; [|apply on_store_eq; exact Hg1].
  erewrite bind_Ok; [|apply on_store_eq; exact Hg2]. reflexivity.
Qed.

Ltac registers_in_range :=
  unfold exact_registers, State.init; cbn [State.A State.C State.S];
  change max_short_line_size with 1024; lia.

(** X15: the fetch.  On a well-formed store [I] returns; it sets the
    program counter to its successor modulo 1024 (so 0 after 1023), puts
    the integer value of the line at the new counter, a value in
    [0, 2^20), into the register [S], leaves the accumulator, and changes
    the store only by materializing that line. *)
Theorem fetch_effect (st : State.t) :
  wf_store (State.e_store st) -> exact_registers st ->
  let c := (State.C st + 1) mod 1024 in
  exists s,
    symbols_to_int (line_at (State.e_store st) c) = Ok s /\
    0 <= s < 2 ^ 20 /\ 0 <= c < 1024 /\
    ReducedMachine.I st
    = (Ok tt, State.mk (State.A st)
                       (EStore.materialize (addr c) (State.e_store st)) c s).
Proof.
  intros Hm _ c.
  destruct (I_eq st Hm) as (line & s & Hline & Hs & Hr & HI).
  change max_short_line_size with 1024 in Hline, HI. fold c in Hline, HI.
  exists s. apply lookup_total_correct in Hline. rewrite materialize_total in Hline.
  rewrite Hline. split; [done|]. split; [done|].
  split; [apply Z.mod_pos_bound; lia|done].
Qed.

Lemma fetch_effect_witness :
  exists s,
    symbols_to_int (line_at (<[py "//" := py "E///"]> ∅) ((1023 + 1) mod 1024)) = Ok s /\
    ReducedMachine.I (State.init 5 (<[py "//" := py "E///"]> ∅))
    = (Ok tt, State.mk 5 (<[py "//" := py "E///"]> ∅) 0 s).
Proof.
  destruct (fetch_effect (State.init 5 (<[py "//" := py "E///"]> ∅)))
    as (s & Hs & _ & _ & HI).
  { apply wf_store_insert; [apply wf_store_empty|apply (addr_field 0)|].
    split; [reflexivity|]. by apply (valid_Forall _ 4). }
  { registers_in_range. }
  exists s. split; [exact Hs|exact HI].
Defined.

(** X16: the branches.  The unconditional branch sets the program counter
    to the low 10 bits of the line at the operand address (the operand is
    an indirect address).  The conditional branch does the same unless
    2^39 <= A < 2^40, in which case the counter stays at the fetched
    address.  Both leave the accumulator and [S] alone. *)
Theorem branch_effect (st : State.t) (conditional : bool) :
  wf_store (State.e_store st) -> exact_registers st ->
  func_of st = (if conditional then py "/H" else py "/P") ->
  let a := operand_of st in
  exists target,
    symbols_to_int (line_at (State.e_store st) a) = Ok target /\
    ReducedMachine.applyInstruction st
    = (Ok tt,
       State.mk (State.A st) (operands_read a (State.e_store st))
                (if conditional && (State.A st <? 2 ^ 40) && (2 ^ 39 <=? State.A st)
                 then State.C st else target mod 1024)
                (State.S st)) /\
    0 <= target mod 1024 < 1024.
Proof.
  intros Hm _ Hf a.
  destruct (applyInstruction_operands st Hm) as (v1 & v2 & Hv1 & _ & _ & _ & ->).
  exists v1. split; [done|]. split; [|apply Z.mod_pos_bound; lia].
  unfold func_of in Hf. unfold ReducedMachine.case_split. rewrite Hf.
  destruct conditional.
  - rewrite decide_True by done. cbn [andb].
    destruct ((State.A st <? 2 ^ 40) && (2 ^ 39 <=? State.A st)); reflexivity.
  - rewrite decide_False by discriminate. rewrite decide_True by done. reflexivity.
Qed.

Lemma branch_effect_witness :
  exists target,
    symbols_to_int (line_at (<[py "E/" := py "A///"]> ∅) 1) = Ok target /\
    ReducedMachine.applyInstruction
      (State.mk 0 (<[py "E/" := py "A///"]> ∅) 0 720897)
    = (Ok tt, State.mk 0 (operands_read 1 (<[py "E/" := py "A///"]> ∅))
                       (target mod 1024) 720897).
Proof.
  destruct (branch_effect (State.mk 0 (<[py "E/" := py "A///"]> ∅) 0 720897) false)
    as (t & Ht & H & _).
  { apply wf_store_insert; [apply wf_store_empty|apply (addr_field 1)|].
    split; [reflexivity|]. by apply (valid_Forall _ 4). }
  { registers_in_range. }
  { reflexivity. }
  exists t. split; [exact Ht|exact H].
Defined.

(** X17: load, clear and double put the accumulator back in [0, 2^40).
    With [v] the 40-bit value of the two lines at the operand address, load
    sets the accumulator to [v], clear to 0 and double to
    [2 * v mod 2^40], whatever the accumulator was before; nothing else in
    the machine state changes but the materialized operand lines. *)
Theorem load_clear_double_effect (st : State.t) (new_A : Z) :
  wf_store (State.e_store st) -> exact_registers st ->
  let a := operand_of st in
  let m := State.e_store st in
  exists v,
    symbols_to_int (line_at m a ++ line_at m (a + 1)) = Ok v /\
    0 <= v < 2 ^ 40 /\
    ((func_of st = py "T/" /\ new_A = v) \/
     (func_of st = py "T:" /\ new_A = 0) \/
     (func_of st = py "TK" /\ new_A = (v * 2) mod 2 ^ 40) ->
     ReducedMachine.applyInstruction st
     = (Ok tt, State.mk new_A (operands_read a m) (State.C st) (State.S st)) /\
     0 <= new_A < 2 ^ 40).
Proof.
  intros Hm _ a m.
  destruct (applyInstruction_operands st Hm) as (v1 & v2 & _ & Hv2 & _ & Hr & ->).
  exists v2. split; [done|]. split; [done|].
  unfold func_of, ReducedMachine.case_split.
  intros [[-> ->]|[[-> ->]|[-> ->]]].
  - repeat (rewrite decide_False by discriminate). rewrite decide_True by done.
    unfold ReducedMachine.set_A, with_store. cbn [State.A State.C State.S State.e_store].
    change max_acc_size with (2 ^ 40). rewrite Z.mod_small by done. by split.
  - repeat (rewrite decide_False by discriminate). rewrite decide_True by done.
    split; [reflexivity|lia].
  - repeat (rewrite decide_False by discriminate). rewrite decide_True by done.
    split; [reflexivity|]. apply Z.mod_pos_bound. lia.
Qed.

Lemma load_clear_double_effect_witness :
  let m : EStore.memory :=
    <[py "S/" := replicate 4 163%N]> (<[py ":/" := replicate 4 163%N]> ∅) in
  ReducedMachine.applyInstruction (State.mk 7 m 0 507908)
  = (Ok tt, State.mk (2 ^ 40 - 2) (operands_read 4 m) 0 507908).
Proof.
  intros m.
  assert (Hm : wf_store m).
  { apply wf_store_insert; [apply wf_store_insert|..];
      [apply wf_store_empty|apply (addr_field 4)| |apply (addr_field 5)|];
      (split; [reflexivity|]); by apply (valid_Forall _ 4). }
  assert (Hr : exact_registers (State.mk 7 m 0 507908))
    by registers_in_range.
  destruct (load_clear_double_effect (State.mk 7 m 0 507908) (2 ^ 40 - 2) Hm Hr)
    as (v & Hv & _ & H).
  apply H. right; right. split; [reflexivity|].
  vm_compute in Hv. injection Hv as <-. reflexivity.
Defined.

Lemma ljust_acc (d : list N) (fill : N) :
  (length d <= 4)%nat ->
  take 4 (ljust d 8 fill) = ljust d 4 fill /\
  drop 4 (ljust d 8 fill) = replicate 4 fill.
Proof.
  intros Hlen.
  assert (H : ljust d 8 fill = ljust d 4 fill ++ replicate 4 fill).
  { unfold ljust. rewrite <- app_assoc, <- replicate_add. do 2 f_equal. lia. }
  assert (Hl : length (ljust d 4 fill) = 4%nat).
  { apply Nat2Z.inj. rewrite length_ljust. lia. }
  rewrite H. split; [by apply take_app_length'|by apply drop_app_length'].
Qed.

(** The accumulator symbols: the line of the low 20 bits and a zero line. *)
Lemma acc_symbols_split (A : Z) :
  take 4 (int_to_symbols A 8) = int_to_symbols A 4 /\
  drop 4 (int_to_symbols A 8) = py "////" /\
  length (int_to_symbols A 8) = 8%nat.
Proof.
  rewrite !int_to_symbols_digits.
  assert (Hd : (length (digits (Z.to_nat linesize) (A mod 2 ^ linesize)) <= 4)%nat).
  { apply digits_length; [apply reduced_range|].
    exact (proj2 (Z.mod_pos_bound A (2 ^ 20) eq_refl)). }
  destruct (ljust_acc _ (symbol_at 0) Hd) as [Ht Hdr].
  split; [done|]. split; [done|].
  apply Nat2Z.inj. rewrite length_ljust. lia.
Qed.

(** The line pair of the instruction in [S] is the key of the operand
    address. *)
Lemma line_pair_operand (st : State.t) :
  let line_pair := take 2 (int_to_symbols (State.S st) 4) in
  EStore.valid line_pair 2 = true /\
  exists p, symbols_to_int line_pair = Ok p /\
            addr p = addr (operand_of st) /\
            addr (p + 1) = addr (operand_of st + 1).
Proof.
  intros line_pair.
  pose proof (int_to_symbols_elem (State.S st) 4) as Hs.
  assert (Hlen : length (int_to_symbols (State.S st) 4) = 4%nat).
  { apply Nat2Z.inj. apply int_to_symbols_length; [lia|].
    exact (proj2 (Z.mod_pos_bound (State.S st) (2 ^ 20) eq_refl)). }
  assert (Hlp : is_field 2 line_pair).
  { split; [unfold line_pair; rewrite length_take; lia|by apply Forall_take]. }
  split; [by apply (valid_field 2)|].
  destruct (symbols_to_int_valid _ (proj2 Hlp)) as (p & Hp & _).
  exists p. split; [done|].
  destruct (addr_of_field _ _ Hlp Hp) as [Hr Hk].
  assert (Hfield : is_field 4 (line_pair ++ drop 2 (int_to_symbols (State.S st) 4))).
  { unfold line_pair. rewrite take_drop. by split. }
  destruct (line_value line_pair _ (State.S st mod 2 ^ 20) Hfield (proj1 Hlp))
    as [_ Hk'].
  { unfold line_pair. rewrite take_drop. apply int_to_symbols_value. }
  assert (Hmod : p mod 1024 = operand_of st mod 1024).
  { apply addr_eq_iff. rewrite Hk, <- Hk'. apply addr_eq_iff.
    unfold operand_of. change max_short_line_size with 1024.
    rewrite !Z.mod_mod by lia.
    apply Z.mod_mod_divide. by exists 1024. }
  split; [by apply addr_eq_iff|].
  apply addr_eq_iff. rewrite (Zplus_mod p), (Zplus_mod (operand_of st)).
  by rewrite Hmod.
Qed.

(** X18: the store instruction.  On a well-formed store it returns; it sets
    [S] to the accumulator modulo 2^20 and writes two lines: the 4-symbol
    encoding of the accumulator (of its low 20 bits) at the address given
    by the line pair, and the zero line at the next address, whatever the
    accumulator is.  The two lines read back as the accumulator modulo
    2^20. *)
Theorem store_effect (st : State.t) :
  wf_store (State.e_store st) -> exact_registers st ->
  func_of st = py "/S" ->
  let a := operand_of st in
  let m' := <[addr (a + 1) := py "////"]>
              (<[addr a := int_to_symbols (State.A st) 4]>
                 (operands_read a (State.e_store st))) in
  ReducedMachine.applyInstruction st
  = (Ok tt, State.mk (State.A st) m' (State.C st) (State.A st mod 2 ^ 20)) /\
  symbols_to_int (line_at m' a ++ line_at m' (a + 1)) = Ok (State.A st mod 2 ^ 20).
Proof.
  intros Hm _ Hf a m'. split.
  - destruct (applyInstruction_operands st Hm) as (v1 & v2 & _ & _ & _ & _ & ->).
    unfold func_of in Hf. unfold ReducedMachine.case_split. rewrite Hf.
    repeat (rewrite decide_False by discriminate). rewrite decide_True by done.
    destruct (line_pair_operand st) as (Hval & p & Hp & Hk & Hk1).
    destruct (acc_symbols_split (State.A st)) as (Ht & Hd & Hlen).
    assert (Hacc : EStore.valid (int_to_symbols (State.A st) 8) 8 = true).
    { apply valid_spec. split; [lia|apply int_to_symbols_elem]. }
    unfold bind, ReducedMachine.set_S, with_store.
    cbn [State.A State.C State.S State.e_store].
    erewrite on_store_eq;
      [|cbn [State.e_store];
        apply (set_long _ _ _ p Hval Hacc Hp); lia].
    unfold with_store. cbn [State.A State.C State.S State.e_store].
    rewrite Ht, Hd, Hk, Hk1. fold a. reflexivity.
  - unfold m'. rewrite line_at_insert.
    rewrite line_at_insert_ne by (apply not_eq_sym, addr_succ_ne).
    rewrite line_at_insert.
    erewrite symbols_to_int_app; [|apply int_to_symbols_value|reflexivity].
    f_equal. change (2 ^ linesize) with (2 ^ 20). lia.
Qed.

Lemma store_effect_witness :
  ReducedMachine.applyInstruction (State.mk (2 ^ 20 + 3) ∅ 1 163848)
  = (Ok tt,
     State.mk (2 ^ 20 + 3)
              (<[py "D/" := py "////"]> (<[py "8/" := py "A///"]> ∅))
              1 3).
Proof.
  assert (Hr : exact_registers (State.mk (2 ^ 20 + 3) ∅ 1 163848))
    by registers_in_range.
  destruct (store_effect (State.mk (2 ^ 20 + 3) ∅ 1 163848) wf_store_empty Hr eq_refl)
    as [H _].
  rewrite H. vm_compute. reflexivity.
Defined.

(** X19: add and subtract undo each other.  An add and a subtract with
    the same operand address, on stores that show the same lines, add and
    subtract the same 40-bit value [v]: the add takes the accumulator from
    [A] to [A + v] and the subtract takes it from [A + v] back to [A],
    neither reducing its result. *)
Theorem add_then_subtract (st1 st2 : State.t) :
  wf_store (State.e_store st1) -> wf_store (State.e_store st2) ->
  exact_registers st1 -> exact_registers st2 ->
  func_of st1 = py "TI" -> func_of st2 = py "TN" ->
  operand_of st2 = operand_of st1 ->
  (forall x, line_at (State.e_store st2) x = line_at (State.e_store st1) x) ->
  let a := operand_of st1 in
  exists v st1' st2',
    symbols_to_int (line_at (State.e_store st1) a
                    ++ line_at (State.e_store st1) (a + 1)) = Ok v /\
    ReducedMachine.applyInstruction st1 = (Ok tt, st1') /\
    State.A st1' = State.A st1 + v /\
    ReducedMachine.applyInstruction st2 = (Ok tt, st2') /\
    State.A st2' = State.A st2 - v /\
    (State.A st2 = State.A st1' -> State.A st2' = State.A st1).
Proof.
  intros Hm1 Hm2 _ _ Hf1 Hf2 Ha Hlines a.
  destruct (applyInstruction_operands st1 Hm1) as (u1 & v & _ & Hv & _ & Hr & H1).
  destruct (applyInstruction_operands st2 Hm2) as (u2 & v' & _ & Hv' & _ & _ & H2).
  rewrite Ha, !Hlines in Hv'. fold a in Hv, Hv'. rewrite Hv in Hv'.
  injection Hv' as <-.
  assert (Hmod : v mod max_acc_size = v) by (apply Z.mod_small; exact Hr).
  unfold func_of in Hf1, Hf2. unfold ReducedMachine.case_split in H1, H2.
  rewrite Hf1 in H1. rewrite Hf2 in H2.
  repeat (rewrite decide_False in H1 by discriminate).
  rewrite decide_True in H1 by done.
  repeat (rewrite decide_False in H2 by discriminate).
  rewrite decide_True in H2 by done.
  unfold ReducedMachine.set_A, with_store in H1, H2.
  cbn [State.A State.C State.S State.e_store] in H1, H2. rewrite Hmod in H1, H2.
  eexists v, _, _. split; [done|]. split; [exact H1|]. split; [reflexivity|].
  split; [exact H2|]. split; [reflexivity|].
  cbn [State.A]. lia.
Qed.

Lemma add_then_subtract_witness :
  let m : EStore.memory := <[py "S/" := py "////"]> (<[py ":/" := py "S///"]> ∅) in
  exists st1' st2',
    ReducedMachine.applyInstruction (State.mk 0 m 0 212996) = (Ok tt, st1') /\
    State.A st1' = 0 + 5 /\
    ReducedMachine.applyInstruction (State.mk 5 m 1 409604) = (Ok tt, st2') /\
    State.A st2' = 5 - 5.
Proof.
  intros m.
  assert (Hm : wf_store m).
  { apply wf_store_insert; [apply wf_store_insert|..];
      [apply wf_store_empty|apply (addr_field 4)| |apply (addr_field 5)|];
      (split; [reflexivity|]); by apply (valid_Forall _ 4). }
  assert (Hr1 : exact_registers (State.mk 0 m 0 212996))
    by registers_in_range.
  assert (Hr2 : exact_registers (State.mk 5 m 1 409604))
    by registers_in_range.
  destruct (add_then_subtract (State.mk 0 m 0 212996) (State.mk 5 m 1 409604)
              Hm Hm Hr1 Hr2 eq_refl eq_refl eq_refl (fun x => eq_refl))
    as (v & st1' & st2' & Hv & H1 & HA1 & H2 & HA2 & _).
  vm_compute in Hv. injection Hv as <-.
  exists st1', st2'. split; [exact H1|]. split; [exact HA1|].
  split; [exact H2|exact HA2].
Defined.

(** ** The run loop, further *)

Lemma run_loop_bound (fuel : nat) :
  forall steps n st, 0 < steps -> n <= steps ->
    match ReducedMachine.run_loop fuel steps n st with
    | ReducedMachine.HaltingLoop n' _ | ReducedMachine.Raised _ n' _ => n' < steps
    | ReducedMachine.StepsDone n' _ => n' = steps
    | ReducedMachine.OutOfFuel => True
    end.
Proof.
  induction fuel as [|fuel IH]; intros steps n st Hs Hn; [done|].
  cbn [ReducedMachine.run_loop].
  replace (steps =? 0) with false by (symmetry; apply Z.eqb_neq; lia).
  rewrite orb_false_r. destruct (n <? steps) eqn:E.
  - apply Z.ltb_lt in E.
    destruct (ReducedMachine.next st) as [[[]|e] st']; [|done].
    destruct (decide (State.C st = State.C st')); [done|].
    apply IH; lia.
  - apply Z.ltb_ge in E. lia.
Qed.

Lemma run_loop_terminates (fuel : nat) :
  forall steps n st, 0 < steps -> n <= steps ->
    (Z.to_nat (steps - n) < fuel)%nat ->
    ReducedMachine.run_loop fuel steps n st <> ReducedMachine.OutOfFuel.
Proof.
  induction fuel as [|fuel IH]; intros steps n st Hs Hn Hf; [lia|].
  cbn [ReducedMachine.run_loop].
  replace (steps =? 0) with false by (symmetry; apply Z.eqb_neq; lia).
  rewrite orb_false_r. destruct (n <? steps) eqn:E; [|done].
  apply Z.ltb_lt in E.
  destruct (ReducedMachine.next st) as [[[]|e] st']; [|done].
  destruct (decide (State.C st = State.C st')); [done|].
  apply IH; lia.
Qed.

(** X20: the step bound of [run].  With a negative bound, the default -1
    of the method included, no cycle is executed.  With a positive bound
    the run always ends, within bound + 1 turns of the loop, and it has
    then executed at most that many cycles. *)
Theorem run_step_bound (fuel : nat) (steps : Z) (st : State.t) :
  (steps < 0 ->
   ReducedMachine.run (S fuel) steps st = ReducedMachine.StepsDone 0 st) /\
  (0 < steps -> (Z.to_nat steps < fuel)%nat ->
   exists c, ReducedMachine.cycles (ReducedMachine.run fuel steps st) = Some c /\
             0 <= c <= steps).
Proof.
  split.
  - intros Hs. unfold ReducedMachine.run. cbn [ReducedMachine.run_loop].
    replace (0 <? steps) with false by (symmetry; apply Z.ltb_ge; lia).
    replace (steps =? 0) with false by (symmetry; apply Z.eqb_neq; lia).
    reflexivity.
  - intros Hs Hf. unfold ReducedMachine.run.
    pose proof (run_loop_bound fuel steps 0 st Hs ltac:(lia)) as Hb.
    pose proof (run_loop_counter fuel steps 0 st) as Hc.
    pose proof (run_loop_terminates fuel steps 0 st Hs ltac:(lia)
                  ltac:(rewrite Z.sub_0_r; exact Hf)) as Ht.
    destruct (ReducedMachine.run_loop fuel steps 0 st) as [n s|n s|e n s|];
      cbn [ReducedMachine.cycles]; [| | |done];
      eexists; (split; [reflexivity|lia]).
Qed.

Ltac case_split_simpl :=
  unfold ReducedMachine.set_C, ReducedMachine.set_A, ret, raise, with_store;
  cbn [State.A State.C State.S State.e_store].

(** What the case split can do to a state whose store is well formed. *)
Lemma case_split_outcome (st : State.t) (instr line_pair func_sym : list N)
      (s_data s_pair_data : Z) (acc_symbols : list N) (m2 : EStore.memory) :
  wf_store m2 ->
  EStore.valid line_pair 2 = true -> EStore.valid acc_symbols 8 = true ->
  match ReducedMachine.case_split st instr line_pair func_sym s_data s_pair_data
          acc_symbols (with_store st m2) with
  | (Ok _, st') =>
      wf_store (State.e_store st') /\
      (func_sym <> py "/S" -> State.S st' = State.S st /\ State.e_store st' = m2) /\
      (func_sym = py "/S" -> State.S st' = State.A st mod 2 ^ 20) /\
      (func_sym ∉ [py "/H"; py "/P"] -> State.C st' = State.C st) /\
      (State.C st' = State.C st \/ State.C st' = s_data mod 1024) /\
      (func_sym ∉ [py "T/"; py "T:"; py "TI"; py "TN"; py "TK"] ->
       State.A st' = State.A st)
  | (Raise e, st') =>
      wf_store (State.e_store st') /\ exists msg, e = InvalidInstructionError msg
  end.
Proof.
  intros Hm Hlp Hacc. unfold ReducedMachine.case_split.
  destruct (decide (func_sym = py "/H")) as [->|H1].
  { destruct (negb _); case_split_simpl; (split; [done|]); (split; [done|]);
      (split; [discriminate|]); (split; [|split; [|done]]);
      try (intros H; exfalso; apply H; apply list_elem_of_In; cbn [In]; tauto);
      tauto. }
  destruct (decide (func_sym = py "/P")) as [->|H2].
  { case_split_simpl. split; [done|]. split; [done|]. split; [discriminate|].
    split; [|split; [by right|done]].
    intros H; exfalso; apply H; apply list_elem_of_In; cbn [In]; tauto. }
  destruct (decide (func_sym = py "/S")) as [->|H3].
  { unfold bind, ReducedMachine.set_S, with_store, ReducedMachine.on_store.
    cbn [State.A State.C State.S State.e_store].
    destruct (set_valid m2 line_pair acc_symbols Hlp Hacc) as (p & _ & Hset).
    destruct (set_loop_Ok (wrap acc_symbols 4) p 0 m2) as [m3 Hm3].
    pose proof (set_wf m2 line_pair acc_symbols Hm) as Hwf.
    rewrite Hset, Hm3 in Hwf |- *. cbn [snd] in Hwf.
    cbn [State.A State.C State.S State.e_store].
    split; [done|]. split; [done|]. split; [done|].
    split; [done|]. split; [by left|done]. }
  destruct (decide (func_sym = py "T/")) as [->|H4].
  { case_split_simpl. split; [done|]. split; [done|]. split; [discriminate|].
    split; [done|]. split; [by left|].
    intros H; exfalso; apply H; apply list_elem_of_In; cbn [In]; tauto. }
  destruct (decide (func_sym = py "T:")) as [->|H5].
  { case_split_simpl. split; [done|]. split; [done|]. split; [discriminate|].
    split; [done|]. split; [by left|].
    intros H; exfalso; apply H; apply list_elem_of_In; cbn [In]; tauto. }
  destruct (decide (func_sym = py "TI")) as [->|H6].
  { case_split_simpl. split; [done|]. split; [done|]. split; [discriminate|].
    split; [done|]. split; [by left|].
    intros H; exfalso; apply H; apply list_elem_of_In; cbn [In]; tauto. }
  destruct (decide (func_sym = py "TN")) as [->|H7].
  { case_split_simpl. split; [done|]. split; [done|]. split; [discriminate|].
    split; [done|]. split; [by left|].
    intros H; exfalso; apply H; apply list_elem_of_In; cbn [In]; tauto. }
  destruct (decide (func_sym = py "TF")) as [->|H8].
  { case_split_simpl. split; [done|]. by eexists. }
  destruct (decide (func_sym = py "TK")) as [->|H9].
  { case_split_simpl. split; [done|]. split; [done|]. split; [discriminate|].
    split; [done|]. split; [by left|].
    intros H; exfalso; apply H; apply list_elem_of_In; cbn [In]; tauto. }
  destruct (decide (func_sym = py "T" ++ [163%N])) as [->|H10].
  { case_split_simpl. split; [done|]. split; [done|]. split; [discriminate|].
    split; [done|]. split; [by left|done]. }
  case_split_simpl. split; [done|]. by eexists.
Qed.

Lemma applyInstruction_outcome (st : State.t) :
  wf_store (State.e_store st) ->
  let a := operand_of st in
  match ReducedMachine.applyInstruction st with
  | (Ok _, st') =>
      wf_store (State.e_store st') /\
      (func_of st <> py "/S" ->
       State.S st' = State.S st /\
       State.e_store st' = operands_read a (State.e_store st)) /\
      (func_of st = py "/S" -> State.S st' = State.A st mod 2 ^ 20) /\
      (func_of st ∉ [py "/H"; py "/P"] -> State.C st' = State.C st) /\
      (State.C st' = State.C st \/ 0 <= State.C st' < 1024) /\
      (func_of st ∉ [py "T/"; py "T:"; py "TI"; py "TN"; py "TK"] ->
       State.A st' = State.A st)
  | (Raise e, st') =>
      wf_store (State.e_store st') /\ exists msg, e = InvalidInstructionError msg
  end.
Proof.
  intros Hm a.
  destruct (applyInstruction_operands st Hm) as (v1 & v2 & _ & _ & _ & _ & ->).
  destruct (line_pair_operand st) as (Hlp & _).
  destruct (acc_symbols_split (State.A st)) as (_ & _ & Hlen).
  assert (Hacc : EStore.valid (int_to_symbols (State.A st) 8) 8 = true).
  { apply valid_spec. split; [lia|apply int_to_symbols_elem]. }
  pose proof (case_split_outcome st (int_to_symbols (State.S st) 4)
                (take 2 (int_to_symbols (State.S st) 4))
                (drop 2 (int_to_symbols (State.S st) 4)) v1 v2
                (int_to_symbols (State.A st) 8) _
                (operands_read_wf (operand_of st) _ Hm) Hlp Hacc) as H.
  fold (func_of st) in H |- *. fold a in H |- *.
  destruct (ReducedMachine.case_split _ _ _ _ _ _ _ _) as [[[]|e] st']; [|done].
  destruct H as (H1 & H2 & H3 & H4 & H5 & H6).
  split; [exact H1|]. split; [exact H2|]. split; [exact H3|].
  split; [exact H4|]. split; [|exact H6].
  destruct H5 as [H5|H5]; [by left|right].
  rewrite H5. apply Z.mod_pos_bound. lia.
Qed.

(** X21: which registers an instruction touches.  When [applyInstruction]
    returns on a well-formed store: only the store instruction changes
    [S] or the content of the store beyond materializing the two operand
    lines; only the two branches change the program counter; only load,
    clear, add, subtract and double change the accumulator. *)
Theorem instruction_frame (st st' : State.t) :
  wf_store (State.e_store st) -> exact_registers st ->
  ReducedMachine.applyInstruction st = (Ok tt, st') ->
  (func_of st <> py "/S" ->
   State.S st' = State.S st /\
   State.e_store st' = operands_read (operand_of st) (State.e_store st)) /\
  (func_of st ∉ [py "/H"; py "/P"] -> State.C st' = State.C st) /\
  (func_of st ∉ [py "T/"; py "T:"; py "TI"; py "TN"; py "TK"] ->
   State.A st' = State.A st).
Proof.
  intros Hm _ H. pose proof (applyInstruction_outcome st Hm) as Ho.
  rewrite H in Ho. destruct Ho as (_ & H2 & _ & H4 & _ & H6). done.
Qed.

Lemma instruction_frame_witness :
  let st := State.mk 7 (<[py "//" := py "E/T:"]> ∅) 0 147457 in
  let st' := snd (ReducedMachine.applyInstruction st) in
  State.S st' = 147457 /\ State.C st' = 0.
Proof.
  intros st st'.
  assert (Hm : wf_store (State.e_store st)).
  { apply wf_store_insert; [apply wf_store_empty|apply (addr_field 0)|].
    split; [reflexivity|]. by apply (valid_Forall _ 4). }
  destruct (instruction_frame st st' Hm) as (H1 & H2 & _).
  { unfold st. registers_in_range. }
  { vm_compute. reflexivity. }
  split.
  - apply H1. discriminate.
  - apply H2. intros Hin. apply list_elem_of_In in Hin. cbn [In] in Hin.
    destruct Hin as [Hin|[Hin|[]]]; discriminate Hin.
Defined.

Lemma next_outcome (st : State.t) :
  wf_store (State.e_store st) ->
  match ReducedMachine.next st with
  | (Ok _, st') =>
      wf_store (State.e_store st') /\
      0 <= State.C st' < 1024 /\ 0 <= State.S st' < 2 ^ 20
  | (Raise e, st') =>
      wf_store (State.e_store st') /\ exists msg, e = InvalidInstructionError msg
  end.
Proof.
  intros Hm. destruct (I_eq st Hm) as (line & s & _ & _ & Hs & HI).
  unfold ReducedMachine.next. erewrite bind_Ok; [|exact HI].
  set (st1 := State.mk _ _ _ s).
  assert (Hm1 : wf_store (State.e_store st1)) by by apply wf_store_materialize.
  pose proof (applyInstruction_outcome st1 Hm1) as Ho.
  destruct (ReducedMachine.applyInstruction st1) as [[[]|e] st']; [|done].
  destruct Ho as (H1 & H2 & H3 & _ & H5 & _).
  split; [done|]. split.
  - destruct H5 as [->|H5]; [|done]. apply mod_short_range.
  - destruct (decide (func_of st1 = py "/S")) as [Hf|Hf].
    + rewrite (H3 Hf). apply Z.mod_pos_bound. lia.
    + by rewrite (proj1 (H2 Hf)).
Qed.

Lemma run_loop_safe (fuel : nat) :
  forall steps n st,
    wf_store (State.e_store st) ->
    safe_outcome (ReducedMachine.run_loop fuel steps n st).
Proof.
  induction fuel as [|fuel IH]; intros steps n st Hm; [done|].
  cbn [ReducedMachine.run_loop].
  destruct ((n <? steps) || (steps =? 0)); [|done].
  pose proof (next_outcome st Hm) as Hn.
  destruct (ReducedMachine.next st) as [[[]|e] st']; [|done].
  destruct (decide (State.C st = State.C st')); [by destruct Hn|].
  apply IH. by destruct Hn.
Qed.

Lemma load_Ok_iff (pairs : list (list N * list N)) :
  forall m, (exists m', EStore.load pairs m = (Ok tt, m')) <-> Forall valid_pair pairs.
Proof.
  induction pairs as [|p pairs IH]; intros m.
  - split; [constructor|by exists m].
  - rewrite load_cons, Forall_cons.
    destruct (EStore.valid (fst p) 2 && EStore.valid (snd p) 8) eqn:E.
    + apply andb_true_iff in E.
      destruct (set_valid_pair m p E) as [m' ->]. rewrite IH.
      split; [intros H; split; [exact E|exact H]|by intros [_ H]].
    + assert (Hp : ~ valid_pair p).
      { intros [H1 H2]. unfold valid_pair in *. rewrite H1, H2 in E. discriminate. }
      rewrite (set_invalid_pair m p Hp).
      split; [by intros [m' [=]]|intros [Hv _]; contradiction].
Qed.

(** X22: the simulator is safe on every code file.  The run starts exactly
    when every pair of the code is accepted by [set]; and then, however
    the run ends, the store is well formed and the only exception a cycle
    can have raised is an [InvalidInstructionError]: the assertions of the
    store and the decoding of lines never fail under the machine. *)
Theorem main_safe (fuel : nat) (code : list (list N * list N)) (max_steps : Z) :
  match main fuel code max_steps with
  | Some o => Forall valid_pair code /\ safe_outcome o
  | None => ~ Forall valid_pair code
  end.
Proof.
  unfold main. pose proof (load_Ok_iff code ∅) as Hiff.
  pose proof (load_wf code ∅ wf_store_empty) as Hwf.
  destruct (EStore.load code ∅) as [[[]|e] m].
  - split; [apply Hiff; by exists m|]. by apply run_loop_safe.
  - intros Hall. apply Hiff in Hall as [m' [=]].
Qed.
